(** * parse_topofile.py: vendor-device tally of a TopologyConfig file

    A shallow embedding of [tools/harness-automation/parse_topofile.py]
    and the properties of [device_calculate].

    Conventions of the embedding:
    - a Python [str] is a [string]; a character is an [ascii], read as the
      code point 0..255;
    - a Python [int] is a [Z];
    - a [Counter] / [dict] is an association list in insertion order (the
      order in which Python iterates and prints it), with unique keys;
    - [logging.info] calls append a [log_record] to the log carried in the
      state; an exception leaving [device_calculate] is the [option exn]
      component of the result. *)

From Stdlib Require Import String Ascii List ZArith Lia Bool Permutation.
Import ListNotations.

Local Open Scope string_scope.
Local Open Scope list_scope.
Local Open Scope Z_scope.

(** ** Characters and strings *)

Definition newline : ascii := "010"%char.
Definition dash : ascii := "-"%char.
Definition hash : ascii := "#"%char.
Definition comma : ascii := ","%char.
Definition colon : ascii := ":"%char.

(** [str.isspace] on one character, which is also the class [\s] of [re] on
    a [str] pattern: TAB..CR, FS..US, space, NEL and NBSP. *)
Definition isspace (c : ascii) : bool :=
  let n := nat_of_ascii c in
  ((9 <=? n) && (n <=? 13) || (28 <=? n) && (n <=? 32)
   || (n =? 133) || (n =? 160))%nat.

(** [s.lstrip()] *)
Fixpoint lstrip (s : string) : string :=
  match s with
  | EmptyString => EmptyString
  | String c s' => if isspace c then lstrip s' else s
  end.

(** [s.rstrip()] *)
Fixpoint rstrip (s : string) : string :=
  match s with
  | EmptyString => EmptyString
  | String c s' =>
      match rstrip s' with
      | EmptyString => if isspace c then EmptyString else String c EmptyString
      | r => String c r
      end
  end.

(** [s.strip()] *)
Definition strip (s : string) : string := rstrip (lstrip s).

(** [c in s] for a character. *)
Fixpoint contains (c : ascii) (s : string) : bool :=
  match s with
  | EmptyString => false
  | String c' s' => Ascii.eqb c' c || contains c s'
  end.

(** The longest prefix without a newline: what [.*] can consume at most
    from the start of the string ([.] matches anything but a newline). *)
Fixpoint first_line (s : string) : string :=
  match s with
  | EmptyString => EmptyString
  | String c s' => if Ascii.eqb c newline then EmptyString
                   else String c (first_line s')
  end.

(** [re.match] of line 98 is not [None]: optional white space, a [#], then
    anything. *)
Definition match_comment (line : string) : bool :=
  match lstrip line with
  | String c _ => Ascii.eqb c hash
  | EmptyString => false
  end.

(** Splitting at the last [-].  The pattern of line 101 is a group of any
    characters, a [-], and a second group of any characters; the first
    group is greedy, so the matcher first tries the longest candidate for
    it and backs off one character at a time until a [-] follows. *)
Fixpoint split_last_dash (s : string) : option (string * string) :=
  match s with
  | EmptyString => None
  | String c s' =>
      match split_last_dash s' with
      | Some (g1, g2) => Some (String c g1, g2)
      | None => if Ascii.eqb c dash then Some (EmptyString, s') else None
      end
  end.

(** [re.match] of line 101 with the two-group pattern: [None], or the
    groups 1 and 2 of the match object.  The flags [re.M | re.I] change
    nothing for this pattern (no [^], [$] or letters in it). *)
Definition match_case (line : string) : option (string * string) :=
  split_last_dash (first_line line).

(** [re.split(sep, s)] for a one-character pattern: the pieces between the
    separators, always at least one piece. *)
Fixpoint re_split (sep : ascii) (s : string) : list string :=
  match s with
  | EmptyString => [EmptyString]
  | String c s' =>
      if Ascii.eqb c sep then EmptyString :: re_split sep s'
      else match re_split sep s' with
           | piece :: rest => String c piece :: rest
           | [] => [String c EmptyString]
           end
  end.

(** Iterating over a text file, given its text after the translation of
    the line ends: the lines, each with its newline (the last line may come
    without one). *)
Fixpoint file_lines (content : string) : list string :=
  match content with
  | EmptyString => []
  | String c rest =>
      if Ascii.eqb c newline then String c EmptyString :: file_lines rest
      else match file_lines rest with
           | [] => [String c EmptyString]
           | l :: ls => String c l :: ls
           end
  end.

(** ** Lists of case identifiers *)

(** [x in l] *)
Fixpoint list_in (x : string) (l : list string) : bool :=
  match l with
  | [] => false
  | y :: l' => String.eqb y x || list_in x l'
  end.

(** [l.remove(x)]: drops the first occurrence; [None] stands for the
    [ValueError] of an absent element. *)
Fixpoint list_remove (x : string) (l : list string) : option (list string) :=
  match l with
  | [] => None
  | y :: l' => if String.eqb y x then Some l'
               else option_map (cons y) (list_remove x l')
  end.

(** ** Counters *)

Definition Counter := list (string * Z).

(** [d[k]] on a [Counter]: a missing key reads as 0 and is not inserted. *)
Fixpoint counter_get (d : Counter) (k : string) : Z :=
  match d with
  | [] => 0
  | (k', v) :: d' => if String.eqb k' k then v else counter_get d' k
  end.

(** [k in d] *)
Fixpoint counter_mem (k : string) (d : Counter) : bool :=
  match d with
  | [] => false
  | (k', _) :: d' => String.eqb k' k || counter_mem k d'
  end.

(** [d[k] = v]: an existing key keeps its place, a new key goes last. *)
Fixpoint counter_set (d : Counter) (k : string) (v : Z) : Counter :=
  match d with
  | [] => [(k, v)]
  | (k', v') :: d' => if String.eqb k' k then (k', v) :: d'
                      else (k', v') :: counter_set d' k v
  end.

(** The keys, in iteration order. *)
Definition counter_keys (d : Counter) : list string := map fst d.

(** ** Exceptions, log and state *)

Inductive exn : Type :=
| AttributeError   (* [matched_case] is [None] and [.group] is called *)
| ValueError.      (* tuple unpacking, [list.remove] of an absent element *)

Inductive log_record : Type :=
| LogCase (case_id : string)                   (* 'case %s:' *)
| LogPairs (role_vendor_list : list (list string)) (* 'role-vendor pair: %s' *)
| LogUnrecognized (line : string) (e : exn)    (* 'Unrecognized format: %s' *)
| LogVendorDevices (case_vendor_dict : Counter) (* 'vendor devices  : %s' *)
| LogNotFound (case_list : list string)        (* 'Case %s not found' *)
| LogTestbed (testbed_vendor_dict : Counter).  (* 'Testbed needed ...' *)

Record state : Type := mkState {
  testbed_vendor_dict : Counter;
  case_list : list string;
  log : list log_record
}.

Definition MAX_VENDOR_DEVICE : Z := 32.

Definition info (r : log_record) (st : state) : state :=
  mkState (testbed_vendor_dict st) (case_list st) (log st ++ [r]).

Definition set_case_list (cl : list string) (st : state) : state :=
  mkState (testbed_vendor_dict st) cl (log st).

Definition set_testbed (d : Counter) (st : state) : state :=
  mkState d (case_list st) (log st).

(** ** The body of the loop over the lines *)

(** Lines 122-125: the loop over [role_vendor_list].  Each tuple is
    unpacked into two names; a tuple of another length raises [ValueError]
    and leaves both counters as the earlier tuples made them. *)
Fixpoint tally_loop (role_vendor_list : list (list string))
    (case_vendor_dict testbed : Counter) : Counter * Counter * option exn :=
  match role_vendor_list with
  | [] => (case_vendor_dict, testbed, None)
  | [_; vendor] :: rest =>
      let case_vendor_dict :=
        counter_set case_vendor_dict vendor
                    (counter_get case_vendor_dict vendor + 1) in
      let testbed :=
        counter_set testbed vendor
                    (Z.max (counter_get testbed vendor)
                           (counter_get case_vendor_dict vendor)) in
      tally_loop rest case_vendor_dict testbed
  | _ :: _ => (case_vendor_dict, testbed, Some ValueError)
  end.

(** How the [try] block of lines 97-117 ends. *)
Inductive try_result : Type :=
| TryContinue                                   (* a [continue] *)
| TryDone (role_vendor_list : list (list string)) (* falls out of the block *)
| TryRaise (e : exn).                           (* an exception *)

(** Lines 98-117, on the stripped line.  With [matched_case = None] the
    call [matched_case.group(1)] raises [AttributeError]: on line 104 when
    'all' is not in [case_list], and otherwise on line 107, before anything
    is logged. *)
Definition try_body (line : string) (st : state) : try_result * state :=
  if match_comment line then (TryContinue, st)
  else
    let all_absent := negb (list_in "all" (case_list st)) in
    match match_case line with
    | None => (TryRaise AttributeError, st)
    | Some (group1, group2) =>
        if all_absent && negb (list_in group1 (case_list st))
        then (TryContinue, st)
        else
          let st := info (LogCase group1) st in
          match (if all_absent then list_remove group1 (case_list st)
                 else Some (case_list st)) with
          | None => (TryRaise ValueError, st)
          | Some cl =>
              let st := set_case_list cl st in
              let role_vendor_raw_list := re_split comma group2 in
              let role_vendor_list :=
                map (re_split colon) role_vendor_raw_list in
              (TryDone role_vendor_list, info (LogPairs role_vendor_list) st)
          end
    end.

(** How one iteration of the loop over the lines ends. *)
Inductive control : Type :=
| Next              (* go on with the next line *)
| Break             (* [break] *)
| Raise (e : exn).  (* the exception leaves [device_calculate] *)

(** Lines 91-127: one iteration, on the line as the file yields it. *)
Definition process_line (line : string) (st : state) : control * state :=
  if String.eqb line "" then (Break, st)
  else
    let line := strip line in
    match try_body line st with
    | (TryContinue, st) => (Next, st)
    | (TryRaise e, st) => (Raise e, info (LogUnrecognized line e) st)
    | (TryDone role_vendor_list, st) =>
        match tally_loop role_vendor_list [] (testbed_vendor_dict st) with
        | (_, testbed, Some e) => (Raise e, set_testbed testbed st)
        | (case_vendor_dict, testbed, None) =>
            (Next, info (LogVendorDevices case_vendor_dict)
                        (set_testbed testbed st))
        end
    end.

(** Lines 89-127: [for line in f]. *)
Fixpoint for_lines (lines : list string) (st : state) : control * state :=
  match lines with
  | [] => (Next, st)
  | line :: rest =>
      match process_line line st with
      | (Next, st') => for_lines rest st'
      | stopped => stopped
      end
  end.

(** ** After the loop *)

(** Lines 135-139: the loop over the keys of [testbed_vendor_dict].  Only
    the value of the existing key 'Any' is assigned, so the keys iterated
    over are those at the start. *)
Fixpoint any_loop (keys : list string) (count_any : Z) (d : Counter)
  : Z * Counter :=
  match keys with
  | [] => (count_any, d)
  | key :: rest =>
      let count_any :=
        if negb (String.eqb key "Any") then count_any - counter_get d key
        else count_any in
      let d := if counter_mem "Any" d then counter_set d "Any" count_any
               else d in
      any_loop rest count_any d
  end.

(** Lines 134-139. *)
Definition override_any (d : Counter) : Counter :=
  snd (any_loop (counter_keys d) MAX_VENDOR_DEVICE d).

Definition initial_state (cl : list string) : state := mkState [] cl [].

(** Lines 129-142, once the loop over the lines has ended normally. *)
Definition finish (st : state) : state :=
  let st :=
    match case_list st with
    | [] => st
    | _ :: _ => if negb (list_in "all" (case_list st))
                then info (LogNotFound (case_list st)) st else st
    end in
  let d := override_any (testbed_vendor_dict st) in
  info (LogTestbed d) (set_testbed d st).

(** [device_calculate(topo_file, case_list)], on the lines of the file.
    The result is the exception that left the function, if any, and the
    state it left behind: what was logged, the caller's [case_list], and
    the test-bed counter. *)
Definition device_calculate (lines : list string) (cl : list string)
  : option exn * state :=
  match for_lines lines (initial_state cl) with
  | (Raise e, st) => (Some e, st)
  | (_, st) => (None, finish st)
  end.

(** ** Notions used to state the properties *)

(** A record with identifier [id] is selected under [cl], and [cl'] is the
    selection afterwards: everything is selected when 'all' is listed;
    otherwise a listed identifier is, and it is removed. *)
Inductive selects (id : string) (cl : list string) : list string -> Prop :=
| selects_all :
    list_in "all" cl = true -> selects id cl cl
| selects_listed cl' :
    list_in "all" cl = false -> list_in id cl = true ->
    list_remove id cl = Some cl' -> selects id cl cl'.

(** The state when the [try] block of a selected record is left. *)
Definition reported (id : string) (rvl : list (list string))
    (cl' : list string) (st : state) : state :=
  info (LogPairs rvl) (set_case_list cl' (info (LogCase id) st)).

(** The ways one iteration can go, as a relation between the state before,
    the line, and the outcome. *)
Inductive line_step (st : state) (line : string) : control -> state -> Prop :=
| step_break :
    line = ""%string ->
    line_step st line Break st
| step_comment :
    line <> ""%string -> match_comment (strip line) = true ->
    line_step st line Next st
| step_unrecognized :
    line <> ""%string -> match_comment (strip line) = false ->
    match_case (strip line) = None ->
    line_step st line (Raise AttributeError)
              (info (LogUnrecognized (strip line) AttributeError) st)
| step_not_selected id rv :
    line <> ""%string -> match_comment (strip line) = false ->
    match_case (strip line) = Some (id, rv) ->
    list_in "all" (case_list st) = false ->
    list_in id (case_list st) = false ->
    line_step st line Next st
| step_tally_raise id rv cl' cd tb e :
    line <> ""%string -> match_comment (strip line) = false ->
    match_case (strip line) = Some (id, rv) ->
    selects id (case_list st) cl' ->
    tally_loop (map (re_split colon) (re_split comma rv)) []
               (testbed_vendor_dict st) = (cd, tb, Some e) ->
    line_step st line (Raise e)
      (set_testbed tb
         (reported id (map (re_split colon) (re_split comma rv)) cl' st))
| step_tally_done id rv cl' cd tb :
    line <> ""%string -> match_comment (strip line) = false ->
    match_case (strip line) = Some (id, rv) ->
    selects id (case_list st) cl' ->
    tally_loop (map (re_split colon) (re_split comma rv)) []
               (testbed_vendor_dict st) = (cd, tb, None) ->
    line_step st line Next
      (info (LogVendorDevices cd)
         (set_testbed tb
            (reported id (map (re_split colon) (re_split comma rv)) cl' st))).

(** A line of the file that the loop skips as a comment. *)
Definition is_comment_line (line : string) : bool :=
  match_comment (strip line).

(** The case identifier of a line that is a case record: group 1 of the
    match on the stripped line. *)
Definition case_id_of (line : string) : option string :=
  if is_comment_line line then None
  else option_map fst (match_case (strip line)).

(** No case record of the stream carries the identifier [x]. *)
Definition unmatched (x : string) (lines : list string) : Prop :=
  Forall (fun line => case_id_of line <> Some x) lines.

(** Splitting at the first [-], as the specification words step 3 of the
    line classification. *)
Fixpoint split_first_dash (s : string) : option (string * string) :=
  match s with
  | EmptyString => None
  | String c s' =>
      if Ascii.eqb c dash then Some (EmptyString, s')
      else match split_first_dash s' with
           | Some (g1, g2) => Some (String c g1, g2)
           | None => None
           end
  end.

(** The sum of the counts of all vendors other than 'Any'. *)
Fixpoint sum_others (d : Counter) : Z :=
  match d with
  | [] => 0
  | (k, v) :: d' => if String.eqb k "Any" then sum_others d'
                    else v + sum_others d'
  end.

(** What the loop of lines 135-139 subtracts while it visits [keys]. *)
Fixpoint sum_keys (d : Counter) (keys : list string) : Z :=
  match keys with
  | [] => 0
  | key :: rest =>
      (if negb (String.eqb key "Any") then counter_get d key else 0)
      + sum_keys d rest
  end.

(** The finalization as the specification words it: two passes, the value
    of 'Any' assigned once, after all the subtractions. *)
Definition override_any_spec (d : Counter) : Counter :=
  if counter_mem "Any" d
  then counter_set d "Any" (MAX_VENDOR_DEVICE - sum_others d)
  else d.

(** The number of (role, vendor) pairs of a case record whose vendor is
    [v]. *)
Fixpoint count_vendor (v : string) (role_vendor_list : list (list string))
  : Z :=
  match role_vendor_list with
  | [] => 0
  | [_; vendor] :: rest =>
      (if String.eqb vendor v then 1 else 0) + count_vendor v rest
  | _ :: rest => count_vendor v rest
  end.

(** The case records reported so far, in the order of the report. *)
Fixpoint processed_cases (l : list log_record) : list (list (list string)) :=
  match l with
  | [] => []
  | LogPairs role_vendor_list :: l' => role_vendor_list :: processed_cases l'
  | _ :: l' => processed_cases l'
  end.

(** The largest count of vendor [v] over a list of case records, 0 for
    none. *)
Definition max_count (v : string) (cases : list (list (list string))) : Z :=
  fold_right Z.max 0 (map (count_vendor v) cases).

(** The invariant of the loop over the lines: the test-bed count of every
    vendor is the largest count over the case records reported so far. *)
Definition holds_maximum (st : state) : Prop :=
  forall v, counter_get (testbed_vendor_dict st) v
            = max_count v (processed_cases (log st)).

(** [l'] is [l] with [x] put in at some position. *)
Definition inserted (x : string) (l l' : list string) : Prop :=
  exists r1 r2, l = r1 ++ r2 /\ l' = r1 ++ x :: r2.

(** Two states that differ only by an identifier [x] put into the
    selection of the second. *)
Definition same_but_selection (x : string) (st st' : state) : Prop :=
  testbed_vendor_dict st' = testbed_vendor_dict st
  /\ log st' = log st
  /\ inserted x (case_list st) (case_list st').

(** The log without the 'not found' record. *)
Definition is_not_found (r : log_record) : bool :=
  match r with LogNotFound _ => true | _ => false end.

Definition without_not_found (l : list log_record) : list log_record :=
  filter (fun r => negb (is_not_found r)) l.

(** ** Example inputs *)

Definition nl : string := String newline EmptyString.

(** The two records of the usage examples in the module docstring. *)
Definition record_5_1_1 : string :=
  ("5.1.1-Leader:ARM,Router_1:ARM" ++ nl)%string.

Definition record_5_2_1 : string :=
  ("5.2.1-Leader:OpenThread,REED_1:Kirale,MED_1:SiLabs" ++ nl)%string.

Definition topo_example : list string := [record_5_1_1; record_5_2_1].

Definition topo_content : string := (record_5_1_1 ++ record_5_2_1)%string.

(** A second record for the case 5.1.1. *)
Definition record_5_1_1_again : string :=
  ("5.1.1-Leader:Kirale,Router_1:Kirale,Router_2:Kirale" ++ nl)%string.

(** A record with a second [-], in a role name. *)
Definition dashed_line : string :=
  ("5.1.1-Leader:ARM,Router-1:ARM" ++ nl)%string.

(** A record whose second token has no [:]. *)
Definition bad_token_lines : list string :=
  [ "5.1.1-Leader:ARM,Router_1" ++ nl; "5.2.1-Leader:ARM" ++ nl ]%string.

(** Two comment lines, and a line of white space. *)
Definition comment_example : list string :=
  [ "# Thread 1.1" ++ nl; "  #5.1.1-Leader:ARM" ++ nl ]%string.

Definition blank_example : string := ("  " ++ nl)%string.

(** A case that needs two devices of vendor V, then one that needs five. *)
Definition two_then_five : list string :=
  [ "1.1-Leader:V,Router_1:V" ++ nl;
    "1.2-Leader:V,Router_1:V,Router_2:V,SED_1:V,MED_1:V" ++ nl ]%string.

(** A file with the single case 5.1.1. *)
Definition only_5_1_1 : list string := [record_5_1_1].

(** Thirty-three devices of one vendor and one of 'Any' in one record. *)
Definition oversubscribed_line : string :=
  (("9.9.9-" ++ String.concat "," (repeat "Router:ARM" 33%nat))
     ++ ",Leader:Any" ++ nl)%string.

(** ** Notions used by the further properties *)

(** The identifiers of the cases reported, in the order of the report. *)
Fixpoint reported_ids (l : list log_record) : list string :=
  match l with
  | [] => []
  | LogCase id :: l' => id :: reported_ids l'
  | _ :: l' => reported_ids l'
  end.

(** The identifiers of the case records of a stream, in stream order. *)
Fixpoint record_ids (lines : list string) : list string :=
  match lines with
  | [] => []
  | line :: rest =>
      match case_id_of line with
      | Some id => id :: record_ids rest
      | None => record_ids rest
      end
  end.

(** The sum of all the counts of a counter. *)
Fixpoint sum_all (d : Counter) : Z :=
  match d with
  | [] => 0
  | (_, v) :: d' => v + sum_all d'
  end.

(** The number of occurrences of a character. *)
Fixpoint count_char (c : ascii) (s : string) : nat :=
  match s with
  | EmptyString => O
  | String c' s' => (if Ascii.eqb c' c then 1 else 0) + count_char c s'
  end.

(** Kinds of log records. *)
Definition is_unrecognized (r : log_record) : bool :=
  match r with LogUnrecognized _ _ => true | _ => false end.

(** Every token of [role_vendor_str] splits on [:] into two parts. *)
Definition pair_tokens (role_vendor_str : string) : bool :=
  forallb (fun token => (length (re_split colon token) =? 2)%nat)
          (re_split comma role_vendor_str).

(** A line that is a comment, or a case record of role:vendor tokens. *)
Definition well_formed_line (line : string) : bool :=
  negb (String.eqb line "")
  && (is_comment_line line
      || match match_case (strip line) with
         | Some (_, role_vendor_str) => pair_tokens role_vendor_str
         | None => false
         end).

(** Two states that differ only by the order of the selection. *)
Definition same_but_order (st st' : state) : Prop :=
  testbed_vendor_dict st' = testbed_vendor_dict st
  /\ log st' = log st
  /\ Permutation (case_list st) (case_list st').

(** * Properties *)

(** ** Strings *)

Lemma first_line_no_newline (s : string) :
  contains newline s = false -> first_line s = s.
Proof.
  induction s as [|c s IH]; simpl; [reflexivity|].
  destruct (Ascii.eqb c newline); simpl; [discriminate|].
  intros H; now rewrite IH.
Qed.

Lemma split_last_dash_none (s : string) :
  contains dash s = false -> split_last_dash s = None.
Proof.
  induction s as [|c s IH]; simpl; [reflexivity|].
  destruct (Ascii.eqb c dash); simpl; [discriminate|].
  intros H; now rewrite IH.
Qed.

Lemma split_last_dash_some (s : string) :
  contains dash s = true ->
  exists g1 g2, split_last_dash s = Some (g1, g2)
                /\ s = (g1 ++ String dash g2)%string
                /\ contains dash g2 = false.
Proof.
  induction s as [|c s IH]; simpl; [discriminate|].
  destruct (contains dash s) eqn:Hs.
  - intros _. destruct (IH eq_refl) as (g1 & g2 & E & -> & Hg2).
    rewrite E. exists (String c g1), g2. repeat split; assumption.
  - rewrite orb_false_r. intros Hc.
    rewrite (split_last_dash_none s Hs), Hc.
    apply Ascii.eqb_eq in Hc. subst c.
    exists EmptyString, s. repeat split; assumption.
Qed.

Lemma match_case_no_dash (line : string) :
  contains dash line = false -> match_case line = None.
Proof.
  intros H. unfold match_case. apply split_last_dash_none.
  revert H. induction line as [|c s IH]; simpl; [reflexivity|].
  destruct (Ascii.eqb c newline); [reflexivity|].
  simpl. destruct (Ascii.eqb c dash); simpl; [discriminate|exact IH].
Qed.

(** *** What [strip] leaves of a line of a file *)

Lemma contains_rstrip (c : ascii) (s : string) :
  contains c s = false -> contains c (rstrip s) = false.
Proof.
  induction s as [|c0 s IH]; simpl; [reflexivity|].
  intros H. apply orb_false_elim in H. destruct H as [H0 Hs].
  specialize (IH Hs).
  destruct (rstrip s) as [|c1 r]; simpl in *.
  - destruct (isspace c0); simpl; [reflexivity|now rewrite H0].
  - now rewrite H0, IH.
Qed.

Lemma contains_lstrip (c : ascii) (s : string) :
  contains c s = false -> contains c (lstrip s) = false.
Proof.
  induction s as [|c0 s IH]; simpl; [reflexivity|].
  intros H. destruct (isspace c0); [|exact H].
  apply orb_false_elim in H. now apply IH.
Qed.

Lemma rstrip_app_space (s : string) (c : ascii) :
  isspace c = true -> rstrip (s ++ String c EmptyString)%string = rstrip s.
Proof.
  intros Hc. induction s as [|c0 s IH]; simpl.
  - now rewrite Hc.
  - now rewrite IH.
Qed.

Lemma lstrip_app (a b : string) :
  lstrip (a ++ b)%string
  = match lstrip a with
    | EmptyString => lstrip b
    | String _ _ => (lstrip a ++ b)%string
    end.
Proof.
  induction a as [|c a IH]; simpl; [reflexivity|].
  destruct (isspace c); [exact IH|reflexivity].
Qed.

Lemma first_line_clean (s : string) :
  contains newline (first_line s) = false.
Proof.
  induction s as [|c s IH]; simpl; [reflexivity|].
  destruct (Ascii.eqb c newline) eqn:E; simpl; [reflexivity|].
  now rewrite E.
Qed.

(** A line of a file holds a newline at its end at most. *)
Lemma file_lines_shape (content : string) :
  Forall (fun line => line = first_line line
                      \/ line = (first_line line ++ nl)%string)
         (file_lines content).
Proof.
  induction content as [|c rest IH]; simpl; [constructor|].
  destruct (Ascii.eqb c newline) eqn:E.
  - apply Ascii.eqb_eq in E. subst c.
    constructor; [cbv beta; now right|exact IH].
  - destruct (file_lines rest) as [|l ls].
    + constructor; [|constructor]. cbv beta. left. simpl. now rewrite E.
    + inversion IH as [|? ? Hl Hls]; subst.
      constructor; [|exact Hls]. cbv beta. simpl. rewrite E.
      destruct Hl as [Hl|Hl]; [left|right]; simpl; now rewrite <- Hl.
Qed.

Lemma strip_file_line (content line : string) :
  In line (file_lines content) -> contains newline (strip line) = false.
Proof.
  intros Hin.
  pose proof (file_lines_shape content) as Hshape.
  rewrite Forall_forall in Hshape. specialize (Hshape line Hin).
  pose proof (first_line_clean line) as Hclean.
  unfold strip. destruct Hshape as [->| ->].
  - now apply contains_rstrip, contains_lstrip.
  - rewrite lstrip_app.
    pose proof (contains_lstrip newline _ Hclean) as Hl.
    destruct (lstrip (first_line line)) as [|c r] eqn:E.
    + reflexivity.
    + unfold nl. rewrite rstrip_app_space by reflexivity.
      now apply contains_rstrip.
Qed.

(** ** C1: where a case record is split *)

Lemma match_case_last_dash (line : string) :
  contains newline line = false ->
  contains dash line = true ->
  exists case_id role_vendor_str,
    match_case line = Some (case_id, role_vendor_str)
    /\ line = (case_id ++ String dash role_vendor_str)%string
    /\ contains dash role_vendor_str = false.
Proof.
  intros Hnl Hd. unfold match_case.
  rewrite (first_line_no_newline line Hnl).
  now apply split_last_dash_some.
Qed.

(** C1, as amended.  A line of a file that, once stripped, contains a [-]
    is matched, and the two groups are the text before and the text after
    its LAST [-]: the second group holds no [-].  When the line is not a
    comment and is selected, the case is reported under group 1 as its
    identifier, and the pairs are those of group 2. *)
Theorem case_record_split_at_last_dash (content line : string) :
  In line (file_lines content) ->
  contains dash (strip line) = true ->
  exists case_id role_vendor_str,
    match_case (strip line) = Some (case_id, role_vendor_str)
    /\ strip line = (case_id ++ String dash role_vendor_str)%string
    /\ contains dash role_vendor_str = false
    /\ (match_comment (strip line) = false ->
        forall st, list_in "all" (case_list st) = true ->
          exists rest,
            log (snd (process_line line st))
            = log st
              ++ LogCase case_id
              :: LogPairs (map (re_split colon)
                               (re_split comma role_vendor_str))
              :: rest).
Proof.
  intros Hin Hd.
  destruct (match_case_last_dash (strip line)
              (strip_file_line content line Hin) Hd)
    as (case_id & rvs & Hm & Heq & Hlast).
  exists case_id, rvs. repeat split; try assumption.
  intros Hc st Hall.
  assert (Hne : String.eqb line "" = false).
  { apply String.eqb_neq. intros ->. discriminate Hd. }
  unfold process_line, try_body. rewrite Hne, Hc, Hm, Hall. simpl.
  destruct (tally_loop (map (re_split colon) (re_split comma rvs)) []
                       (testbed_vendor_dict st)) as [[cd tb] [e|]]; simpl;
    rewrite <- !app_assoc; simpl; eauto.
Qed.

Lemma case_record_split_at_last_dash_witness :
  In dashed_line (file_lines dashed_line)
  /\ contains dash (strip dashed_line) = true
  /\ exists case_id role_vendor_str,
       match_case (strip dashed_line) = Some (case_id, role_vendor_str)
       /\ strip dashed_line = (case_id ++ String dash role_vendor_str)%string
       /\ contains dash role_vendor_str = false.
Proof.
  assert (Hin : In dashed_line (file_lines dashed_line)) by (now left).
  split; [exact Hin|]. split; [reflexivity|].
  destruct (case_record_split_at_last_dash dashed_line dashed_line Hin
              eq_refl) as (case_id & rvs & Hm & Heq & Hlast & _).
  now exists case_id, rvs.
Defined.

(** C1, as stated, fails on a record with two [-]: the line is neither
    blank nor a comment and contains a [-], yet the source splits it at
    the last [-], not at the first one, and reports the case under the
    longer identifier. *)
Lemma first_dash_split_counterexample :
  In dashed_line (file_lines dashed_line)
  /\ strip dashed_line <> ""%string
  /\ match_comment (strip dashed_line) = false
  /\ contains dash (strip dashed_line) = true
  /\ split_first_dash (strip dashed_line)
     = Some ("5.1.1", "Leader:ARM,Router-1:ARM")%string
  /\ match_case (strip dashed_line)
     = Some ("5.1.1-Leader:ARM,Router", "1:ARM")%string
  /\ match_case (strip dashed_line) <> split_first_dash (strip dashed_line)
  /\ log (snd (device_calculate [dashed_line] ["all"%string]))
     = [ LogCase "5.1.1-Leader:ARM,Router";
         LogPairs [["1"; "ARM"]];
         LogVendorDevices [("ARM", 1)];
         LogTestbed [("ARM", 1)] ]%string.
Proof.
  split; [now left|].
  repeat split; try reflexivity; vm_compute; discriminate.
Qed.

(** ** C2: comment lines and blank lines *)

Lemma process_line_comment (line : string) (st : state) :
  is_comment_line line = true -> process_line line st = (Next, st).
Proof.
  unfold is_comment_line, process_line, try_body. intros H.
  destruct (String.eqb line "") eqn:E.
  - apply String.eqb_eq in E. subst line. discriminate H.
  - now rewrite H.
Qed.

Lemma for_lines_comments (lines : list string) (st : state) :
  Forall (fun line => is_comment_line line = true) lines ->
  for_lines lines st = (Next, st).
Proof.
  induction 1 as [|line lines H _ IH]; simpl; [reflexivity|].
  now rewrite (process_line_comment line st H).
Qed.

Lemma for_lines_app (l1 l2 : list string) (st : state) :
  for_lines (l1 ++ l2) st
  = match for_lines l1 st with
    | (Next, st') => for_lines l2 st'
    | stopped => stopped
    end.
Proof.
  revert st. induction l1 as [|line l1 IH]; intros st; simpl.
  - reflexivity.
  - destruct (process_line line st) as [[| |e] st']; auto.
Qed.

(** A line that is not empty but empty once stripped: the match is [None]
    and the iteration ends in the [except] clause. *)
Lemma process_line_blank (line : string) (st : state) :
  line <> ""%string -> strip line = ""%string ->
  process_line line st
  = (Raise AttributeError, info (LogUnrecognized "" AttributeError) st).
Proof.
  intros Hne Hblank. unfold process_line.
  destruct (String.eqb line "") eqn:E.
  - apply String.eqb_eq in E. contradiction.
  - rewrite Hblank. reflexivity.
Qed.

(** C2, as amended.  A stream of comment lines only, with the selection
    'all', runs to the end without an exception, reports no case and ends
    with the empty test-bed counter: every comment line is skipped.  A
    blank line is not skipped: the first blank line after such comment
    lines ends the run with [AttributeError], reported as an unrecognized
    format, whatever follows it. *)
Theorem comment_lines_skipped_blank_line_raises
    (comments rest : list string) :
  Forall (fun line => is_comment_line line = true) comments ->
  device_calculate comments ["all"%string]
  = (None, mkState [] ["all"%string] [LogTestbed []])
  /\ forall blank : string,
       blank <> ""%string -> strip blank = ""%string ->
       device_calculate (comments ++ blank :: rest) ["all"%string]
       = (Some AttributeError,
          mkState [] ["all"%string] [LogUnrecognized "" AttributeError]).
Proof.
  intros Hc. unfold device_calculate. split.
  - now rewrite (for_lines_comments _ _ Hc).
  - intros blank Hne Hblank.
    rewrite for_lines_app, (for_lines_comments _ _ Hc). simpl.
    now rewrite (process_line_blank _ _ Hne Hblank).
Qed.

Lemma comment_lines_skipped_blank_line_raises_witness :
  Forall (fun line => is_comment_line line = true) comment_example
  /\ device_calculate comment_example ["all"%string]
     = (None, mkState [] ["all"%string] [LogTestbed []])
  /\ device_calculate (comment_example ++ blank_example :: topo_example)
                      ["all"%string]
     = (Some AttributeError,
        mkState [] ["all"%string] [LogUnrecognized "" AttributeError]).
Proof.
  assert (H : Forall (fun line => is_comment_line line = true)
                     comment_example) by (repeat constructor).
  split; [exact H|].
  destruct (comment_lines_skipped_blank_line_raises _ topo_example H)
    as [Hdone Hblank].
  split; [exact Hdone|].
  apply Hblank; [discriminate|reflexivity].
Defined.

(** C2, as stated, fails on a stream that holds a blank line: with the
    selection 'all' the run ends with an exception instead of skipping the
    line, and the final counter is never reported. *)
Lemma blank_line_counterexample :
  strip nl = ""%string
  /\ device_calculate [nl] ["all"%string]
     = (Some AttributeError,
        mkState [] ["all"%string] [LogUnrecognized "" AttributeError])
  /\ fst (device_calculate (comment_example ++ nl :: comment_example)
                           ["all"%string])
     <> None.
Proof.
  repeat split; try reflexivity. vm_compute. discriminate.
Qed.

(** ** Counters *)

Lemma counter_get_set (d : Counter) (k k' : string) (x : Z) :
  counter_get (counter_set d k x) k'
  = if String.eqb k k' then x else counter_get d k'.
Proof.
  induction d as [|[k0 v0] d IH]; simpl.
  - reflexivity.
  - destruct (String.eqb k0 k) eqn:E0; simpl.
    + apply String.eqb_eq in E0. subst k0.
      destruct (String.eqb k k'); reflexivity.
    + rewrite IH. destruct (String.eqb k0 k') eqn:E1; [|reflexivity].
      apply String.eqb_eq in E1. subst k0.
      rewrite String.eqb_sym, E0. reflexivity.
Qed.

Lemma counter_mem_set (d : Counter) (k k' : string) (x : Z) :
  counter_mem k' (counter_set d k x) = String.eqb k k' || counter_mem k' d.
Proof.
  induction d as [|[k0 v0] d IH]; simpl.
  - now rewrite orb_false_r.
  - destruct (String.eqb k0 k) eqn:E0; simpl.
    + apply String.eqb_eq in E0. subst k0.
      now destruct (String.eqb k k').
    + rewrite IH. destruct (String.eqb k0 k'), (String.eqb k k'); reflexivity.
Qed.

Lemma counter_mem_In (d : Counter) (k : string) :
  counter_mem k d = true <-> In k (counter_keys d).
Proof.
  induction d as [|[k0 v0] d IH]; simpl.
  - split; [discriminate|tauto].
  - rewrite orb_true_iff, String.eqb_eq, IH. tauto.
Qed.

Lemma counter_keys_set (d : Counter) (k : string) (x : Z) :
  counter_keys (counter_set d k x)
  = if counter_mem k d then counter_keys d else counter_keys d ++ [k].
Proof.
  induction d as [|[k0 v0] d IH]; simpl; [reflexivity|].
  destruct (String.eqb k0 k) eqn:E0; simpl; [reflexivity|].
  rewrite IH. now destruct (counter_mem k d).
Qed.

Lemma counter_set_set (d : Counter) (k : string) (x y : Z) :
  counter_set (counter_set d k x) k y = counter_set d k y.
Proof.
  induction d as [|[k0 v0] d IH]; simpl.
  - now rewrite String.eqb_refl.
  - destruct (String.eqb k0 k) eqn:E0; simpl; rewrite E0; [reflexivity|].
    now rewrite IH.
Qed.

Lemma counter_keys_set_NoDup (d : Counter) (k : string) (x : Z) :
  NoDup (counter_keys d) -> NoDup (counter_keys (counter_set d k x)).
Proof.
  intros H. rewrite counter_keys_set.
  destruct (counter_mem k d) eqn:E; [exact H|].
  apply NoDup_app; [exact H|repeat constructor; simpl; tauto|].
  intros a Ha [<-|[]]. apply counter_mem_In in Ha. congruence.
Qed.

(** ** The loop over the keys *)

Lemma sum_keys_set_any (d : Counter) (x : Z) (keys : list string) :
  sum_keys (counter_set d "Any" x) keys = sum_keys d keys.
Proof.
  induction keys as [|key rest IH]; simpl; [reflexivity|].
  rewrite IH, counter_get_set, (String.eqb_sym "Any" key).
  now destruct (String.eqb key "Any").
Qed.

Lemma any_loop_absent (keys : list string) (count_any : Z) (d : Counter) :
  counter_mem "Any" d = false ->
  any_loop keys count_any d = (count_any - sum_keys d keys, d).
Proof.
  intros Hmem. revert count_any.
  induction keys as [|key rest IH]; intros count_any; simpl.
  - f_equal. lia.
  - rewrite Hmem, IH. f_equal.
    destruct (String.eqb key "Any"); simpl; lia.
Qed.

Lemma any_loop_present (keys : list string) (count_any : Z) (d : Counter) :
  counter_mem "Any" d = true ->
  any_loop keys count_any d
  = (count_any - sum_keys d keys,
     match keys with
     | [] => d
     | _ :: _ => counter_set d "Any" (count_any - sum_keys d keys)
     end).
Proof.
  revert count_any d.
  induction keys as [|key rest IH]; intros count_any d Hmem; simpl.
  - f_equal. lia.
  - rewrite Hmem, IH by (rewrite counter_mem_set; reflexivity).
    rewrite sum_keys_set_any, counter_set_set.
    destruct (String.eqb key "Any"); simpl;
      destruct rest; simpl; f_equal; try lia; f_equal; lia.
Qed.

Lemma sum_keys_cons_fresh (k : string) (v : Z) (d : Counter)
    (keys : list string) :
  ~ In k keys -> sum_keys ((k, v) :: d) keys = sum_keys d keys.
Proof.
  induction keys as [|key rest IH]; simpl; [reflexivity|].
  intros Hin. rewrite IH by tauto.
  destruct (String.eqb k key) eqn:E; [|reflexivity].
  apply String.eqb_eq in E. subst key. tauto.
Qed.

Lemma sum_keys_all (d : Counter) :
  NoDup (counter_keys d) -> sum_keys d (counter_keys d) = sum_others d.
Proof.
  induction d as [|[k v] d IH]; simpl; [reflexivity|].
  intros Hnd. inversion Hnd as [|? ? Hfresh Hnd']; subst.
  rewrite String.eqb_refl, sum_keys_cons_fresh, IH by assumption.
  now destruct (String.eqb k "Any").
Qed.

(** The loop of the source assigns 'Any' at every key, yet it ends with
    the dictionary of the two-pass wording. *)
Lemma override_any_refines (d : Counter) :
  NoDup (counter_keys d) -> override_any d = override_any_spec d.
Proof.
  intros Hnd. unfold override_any, override_any_spec.
  destruct (counter_mem "Any" d) eqn:Hmem.
  - rewrite any_loop_present, sum_keys_all by assumption. simpl.
    destruct d; [discriminate Hmem|reflexivity].
  - now rewrite any_loop_absent.
Qed.

(** ** The loop over the pairs of a record *)

Lemma tally_loop_NoDup (rvl : list (list string)) (cd tb : Counter) :
  NoDup (counter_keys tb) ->
  NoDup (counter_keys (snd (fst (tally_loop rvl cd tb)))).
Proof.
  revert cd tb. induction rvl as [|t rest IH]; intros cd tb H; simpl.
  - exact H.
  - destruct t as [|role [|vendor [|extra t]]]; simpl; try exact H.
    apply IH. now apply counter_keys_set_NoDup.
Qed.

(** ** One iteration, case by case *)

Lemma list_remove_listed (x : string) (l : list string) :
  list_in x l = true -> exists l', list_remove x l = Some l'.
Proof.
  induction l as [|y l IH]; simpl; [discriminate|].
  destruct (String.eqb y x); simpl; [now exists l|].
  intros H. destruct (IH H) as [l' ->]. now exists (y :: l').
Qed.

(** [process_line] goes one of the ways of [line_step]; in particular
    [case_list.remove] never fails in it. *)
Lemma process_line_step (line : string) (st : state) :
  line_step st line (fst (process_line line st)) (snd (process_line line st)).
Proof.
  unfold process_line.
  destruct (String.eqb line "") eqn:Hline.
  { apply String.eqb_eq in Hline. now apply step_break. }
  apply String.eqb_neq in Hline.
  unfold try_body.
  destruct (match_comment (strip line)) eqn:Hcomment.
  { now apply step_comment. }
  destruct (match_case (strip line)) as [[id rv]|] eqn:Hmatch.
  2: { now apply step_unrecognized. }
  destruct (list_in "all" (case_list st)) eqn:Hall; simpl.
  - destruct (tally_loop (map (re_split colon) (re_split comma rv)) []
                         (testbed_vendor_dict st)) as [[cd tb] [e|]] eqn:Ht;
      simpl.
    + eapply step_tally_raise; eauto using selects_all.
    + eapply step_tally_done; eauto using selects_all.
  - destruct (list_in id (case_list st)) eqn:Hin; simpl.
    + destruct (list_remove_listed _ _ Hin) as [cl' Hrm]. rewrite Hrm. simpl.
      destruct (tally_loop (map (re_split colon) (re_split comma rv)) []
                           (testbed_vendor_dict st)) as [[cd tb] [e|]] eqn:Ht;
        simpl.
      * eapply step_tally_raise; eauto using selects_listed.
      * eapply step_tally_done; eauto using selects_listed.
    + eapply step_not_selected; eauto.
Qed.

Lemma process_line_inv (line : string) (st st' : state) (c : control) :
  process_line line st = (c, st') -> line_step st line c st'.
Proof.
  intros H. pose proof (process_line_step line st) as S.
  now rewrite H in S.
Qed.

(** A property of the state that every iteration keeps holds when the loop
    over the lines stops, however it stops. *)
Lemma for_lines_invariant (P : state -> Prop) :
  (forall st line c st', P st -> line_step st line c st' -> P st') ->
  forall lines st, P st -> P (snd (for_lines lines st)).
Proof.
  intros Hstep lines. induction lines as [|line rest IH]; intros st H; simpl.
  - exact H.
  - pose proof (process_line_step line st) as S.
    destruct (process_line line st) as [c st']. simpl in S.
    pose proof (Hstep _ _ _ _ H S) as H'.
    destruct c; simpl; auto.
Qed.

Lemma line_step_NoDup (st : state) (line : string) (c : control)
    (st' : state) :
  NoDup (counter_keys (testbed_vendor_dict st)) ->
  line_step st line c st' ->
  NoDup (counter_keys (testbed_vendor_dict st')).
Proof.
  intros H S.
  destruct S as [ | | | | id rv ? ? ? ? ? ? ? ? Ht | id rv ? ? ? ? ? ? ? Ht ];
    simpl; try exact H;
    pose proof (tally_loop_NoDup
                  (map (re_split colon) (re_split comma rv)) [] _ H) as N;
    now rewrite Ht in N.
Qed.

Lemma for_lines_NoDup (lines : list string) (cl : list string) :
  NoDup (counter_keys
           (testbed_vendor_dict (snd (for_lines lines (initial_state cl))))).
Proof.
  apply (for_lines_invariant
           (fun st => NoDup (counter_keys (testbed_vendor_dict st)))).
  - intros; eauto using line_step_NoDup.
  - constructor.
Qed.

(** ** C3: the value of 'Any' *)

Lemma counter_get_override_spec (d : Counter) (v : string) :
  v <> "Any"%string ->
  counter_get (override_any_spec d) v = counter_get d v.
Proof.
  intros Hv. unfold override_any_spec.
  destruct (counter_mem "Any" d); [|reflexivity].
  rewrite counter_get_set.
  destruct (String.eqb "Any" v) eqn:E; [|reflexivity].
  apply String.eqb_eq in E. congruence.
Qed.

(** C3.  Let [d] be the test-bed counter when the loop over the lines has
    stopped, and [d'] the counter after lines 134-139.  Then [d'] is what
    the single assignment of the specification gives: when 'Any' is a key
    of [d] its value in [d'] is [MAX_VENDOR_DEVICE] minus the sum of the
    counts of all other vendors, an integer that may be negative; when
    'Any' is not a key nothing changes; the counts of the other vendors and
    the keys are the same in [d'] and [d].  (The source assigns 'Any' once
    per key; only the last assignment, made with the fully reduced
    remainder, is left in [d'].) *)
Theorem any_is_remaining_capacity
    (lines cl : list string) (c : control) (st : state) :
  for_lines lines (initial_state cl) = (c, st) ->
  let d := testbed_vendor_dict st in
  let d' := testbed_vendor_dict (finish st) in
  ((forall e, c <> Raise e) -> device_calculate lines cl = (None, finish st))
  /\ d' = override_any_spec d
  /\ (counter_mem "Any" d = true ->
      counter_get d' "Any" = MAX_VENDOR_DEVICE - sum_others d)
  /\ (counter_mem "Any" d = false -> d' = d)
  /\ (forall v, v <> "Any"%string -> counter_get d' v = counter_get d v)
  /\ counter_keys d' = counter_keys d.
Proof.
  intros Hrun d d'.
  assert (Hnd : NoDup (counter_keys d)).
  { pose proof (for_lines_NoDup lines cl) as N. now rewrite Hrun in N. }
  assert (E : d' = override_any_spec d).
  { subst d'. unfold finish.
    destruct (case_list st);
      [|destruct (negb (list_in "all" (s :: l)))]; simpl;
      now apply override_any_refines. }
  split.
  { intros Hc. unfold device_calculate. rewrite Hrun.
    destruct c as [| |e]; [reflexivity|reflexivity|now destruct (Hc e)]. }
  split; [exact E|]. rewrite E. unfold override_any_spec.
  repeat split.
  - intros ->. rewrite counter_get_set. reflexivity.
  - now intros ->.
  - intros v Hv. now apply (counter_get_override_spec d v).
  - destruct (counter_mem "Any" d) eqn:M; [|reflexivity].
    now rewrite counter_keys_set, M.
Qed.

Lemma any_is_remaining_capacity_witness :
  for_lines [oversubscribed_line] (initial_state ["all"%string])
  = (Next,
     mkState [("ARM", 33); ("Any", 1)]%string ["all"%string]
       (log (snd (for_lines [oversubscribed_line]
                            (initial_state ["all"%string])))))
  /\ testbed_vendor_dict
       (snd (device_calculate [oversubscribed_line] ["all"%string]))
     = [("ARM", 33); ("Any", -1)]%string.
Proof.
  assert (H : for_lines [oversubscribed_line] (initial_state ["all"%string])
              = (Next,
                 mkState [("ARM", 33); ("Any", 1)]%string ["all"%string]
                   (log (snd (for_lines [oversubscribed_line]
                                (initial_state ["all"%string]))))))
    by (vm_compute; reflexivity).
  split; [exact H|].
  unfold device_calculate. rewrite H.
  destruct (any_is_remaining_capacity _ _ _ _ H) as [_ [E _]].
  simpl in E. simpl. rewrite E. reflexivity.
Defined.

(** ** C5 and C9: the test-bed counter holds the per-vendor maximum *)

Lemma count_vendor_nonneg (v : string) (rvl : list (list string)) :
  0 <= count_vendor v rvl.
Proof.
  induction rvl as [|t rest IH]; simpl; [lia|].
  destruct t as [|role [|vendor [|extra t]]]; try exact IH.
  destruct (String.eqb vendor v); lia.
Qed.

(** The test-bed count of a vendor never goes down in the loop over the
    pairs, also when the loop stops at a malformed tuple. *)
Lemma tally_loop_mono (v : string) (rvl : list (list string))
    (cd tb : Counter) :
  counter_get tb v <= counter_get (snd (fst (tally_loop rvl cd tb))) v.
Proof.
  revert cd tb. induction rvl as [|t rest IH]; intros cd tb; simpl.
  - lia.
  - destruct t as [|role [|vendor [|extra t]]]; simpl; try lia.
    eapply Z.le_trans; [|apply IH].
    rewrite counter_get_set. destruct (String.eqb vendor v) eqn:E; [|lia].
    apply String.eqb_eq in E. subst vendor. lia.
Qed.

(** When the loop over the pairs runs to its end, each vendor of the
    record has its case count raised by its number of pairs, and its
    test-bed count raised to at least the new case count. *)
Lemma tally_loop_done (v : string) (rvl : list (list string))
    (cd tb cd' tb' : Counter) :
  tally_loop rvl cd tb = (cd', tb', None) ->
  counter_get cd' v = counter_get cd v + count_vendor v rvl
  /\ counter_get tb' v
     = if count_vendor v rvl =? 0 then counter_get tb v
       else Z.max (counter_get tb v) (counter_get cd v + count_vendor v rvl).
Proof.
  revert cd tb. induction rvl as [|t rest IH]; intros cd tb; simpl.
  - intros [= <- <-]. split; [lia|reflexivity].
  - destruct t as [|role [|vendor [|extra t]]]; try discriminate.
    intros H. destruct (IH _ _ H) as [Hcd Htb]. clear IH H.
    rewrite Hcd, Htb. rewrite !counter_get_set.
    pose proof (count_vendor_nonneg v rest) as Hn.
    destruct (String.eqb vendor v) eqn:E.
    + apply String.eqb_eq in E. subst vendor.
      rewrite ?String.eqb_refl.
      split; [lia|].
      destruct (count_vendor v rest =? 0) eqn:E0;
        destruct (1 + count_vendor v rest =? 0) eqn:E1; lia.
    + split; [lia|].
      rewrite Z.add_0_l.
      destruct (count_vendor v rest =? 0); reflexivity.
Qed.

Lemma processed_cases_app (l1 l2 : list log_record) :
  processed_cases (l1 ++ l2) = processed_cases l1 ++ processed_cases l2.
Proof.
  induction l1 as [|r l1 IH]; simpl; [reflexivity|].
  destruct r; simpl; now rewrite IH.
Qed.

Lemma max_count_snoc (v : string) (cases : list (list (list string)))
    (rvl : list (list string)) :
  max_count v (cases ++ [rvl]) = Z.max (max_count v cases) (count_vendor v rvl).
Proof.
  unfold max_count. pose proof (count_vendor_nonneg v rvl) as Hn.
  induction cases as [|c cases IH]; simpl; [lia|]. rewrite IH. lia.
Qed.

Lemma max_count_nonneg (v : string) (cases : list (list (list string))) :
  0 <= max_count v cases.
Proof.
  unfold max_count. induction cases as [|c cases IH]; simpl; lia.
Qed.

Lemma line_step_holds_maximum (st : state) (line : string) (c : control)
    (st' : state) :
  c <> Raise ValueError ->
  holds_maximum st -> line_step st line c st' -> holds_maximum st'.
Proof.
  intros Hc H S.
  destruct S as [ | | | | id rv ? ? ? e ? ? ? Hsel Ht
                  | id rv ? ? ? ? ? ? Hsel Ht ]; try exact H.
  - intros v. simpl. rewrite processed_cases_app. simpl.
    rewrite app_nil_r. apply H.
  - exfalso. apply Hc. f_equal.
    clear - Ht. revert Ht.
    generalize (map (re_split colon) (re_split comma rv)),
               (@nil (string * Z)), (testbed_vendor_dict st).
    intros rvl. induction rvl as [|t rest IH]; intros cd0 tb0; simpl.
    + discriminate.
    + destruct t as [|role [|vendor [|extra t]]];
        try (now intros [= _ _ <-]). apply IH.
  - intros v. simpl. rewrite !processed_cases_app. simpl.
    rewrite ?app_nil_r, max_count_snoc, ?app_nil_r.
    destruct (tally_loop_done v _ _ _ _ _ Ht) as [_ ->].
    rewrite (H v). simpl.
    pose proof (max_count_nonneg v (processed_cases (log st))).
    pose proof (count_vendor_nonneg v
                  (map (re_split colon) (re_split comma rv))).
    destruct (count_vendor v (map (re_split colon) (re_split comma rv)) =? 0)
      eqn:E; lia.
Qed.

Lemma for_lines_invariant_until (P : state -> Prop) (Q : control -> Prop) :
  Q Next ->
  (forall st line c st', P st -> line_step st line c st' -> Q c -> P st') ->
  forall lines st,
    P st -> Q (fst (for_lines lines st)) -> P (snd (for_lines lines st)).
Proof.
  intros HQ Hstep lines.
  induction lines as [|line rest IH]; intros st H; simpl.
  - intros _. exact H.
  - pose proof (process_line_step line st) as S.
    destruct (process_line line st) as [c st']. simpl in S.
    destruct c; simpl; intros Hq.
    + apply IH; [|exact Hq]. exact (Hstep _ _ _ _ H S HQ).
    + exact (Hstep _ _ _ _ H S Hq).
    + exact (Hstep _ _ _ _ H S Hq).
Qed.

(** C5.  When the loop over the lines has stopped without a [ValueError]
    from the unpacking of a tuple, the test-bed counter, before 'Any' is
    overridden, holds for every vendor [v] the largest number of pairs
    with vendor [v] over the case records that were processed, and 0 for a
    vendor of no record.  Counts are not added up across cases: the
    instance of two cases with the tallies V:2 and V:5 gives 5. *)
Theorem testbed_holds_maximum
    (lines cl : list string) (c : control) (st : state) (v : string) :
  for_lines lines (initial_state cl) = (c, st) ->
  c <> Raise ValueError ->
  counter_get (testbed_vendor_dict st) v
  = max_count v (processed_cases (log st)).
Proof.
  intros Hrun Hc.
  assert (I : holds_maximum st); [|exact (I v)].
  pose proof (for_lines_invariant_until holds_maximum
                (fun c => c <> Raise ValueError)) as I.
  specialize (I ltac:(discriminate)).
  specialize (fun S => I S lines (initial_state cl)).
  rewrite Hrun in I. simpl in I. apply I; [| |exact Hc].
  - intros st0 line c0 st' H0 S0 Hc0.
    exact (line_step_holds_maximum st0 line c0 st' Hc0 H0 S0).
  - intros v'. reflexivity.
Qed.

Lemma testbed_holds_maximum_witness :
  log (snd (for_lines two_then_five (initial_state ["all"%string])))
  = [ LogCase "1.1";
      LogPairs [["Leader"; "V"]; ["Router_1"; "V"]];
      LogVendorDevices [("V", 2)];
      LogCase "1.2";
      LogPairs [["Leader"; "V"]; ["Router_1"; "V"]; ["Router_2"; "V"];
                ["SED_1"; "V"]; ["MED_1"; "V"]];
      LogVendorDevices [("V", 5)] ]%string
  /\ counter_get
       (testbed_vendor_dict
          (snd (for_lines two_then_five (initial_state ["all"%string]))))
       "V" = 5.
Proof.
  split; [reflexivity|].
  rewrite (testbed_holds_maximum two_then_five ["all"%string] Next
             (snd (for_lines two_then_five (initial_state ["all"%string])))
             "V"%string).
  - reflexivity.
  - reflexivity.
  - discriminate.
Defined.

Lemma for_lines_snoc (pre : list string) (line : string) (st : state) :
  for_lines (pre ++ [line]) st
  = match for_lines pre st with
    | (Next, st') => process_line line st'
    | stopped => stopped
    end.
Proof.
  rewrite for_lines_app. destruct (for_lines pre st) as [[| |e] st'];
    try reflexivity.
  simpl. now destruct (process_line line st') as [[| |e] st''].
Qed.

Lemma line_step_mono (v : string) (st : state) (line : string)
    (c : control) (st' : state) :
  line_step st line c st' ->
  counter_get (testbed_vendor_dict st) v
  <= counter_get (testbed_vendor_dict st') v.
Proof.
  intros S.
  destruct S as [ | | | | id rv ? ? ? e ? ? ? Hsel Ht
                  | id rv ? ? ? ? ? ? Hsel Ht ]; simpl; try lia;
    pose proof (tally_loop_mono v (map (re_split colon) (re_split comma rv))
                  [] (testbed_vendor_dict st)) as M;
    now rewrite Ht in M.
Qed.

(** C9.  While the cases are folded, the test-bed count of a vendor never
    decreases: not in the loop over the pairs of one record, whatever the
    counters were and also when a malformed tuple stops it; and the count
    after one more line of the stream is at least the count after the
    lines before it, whatever the lines and the selection. *)
Theorem testbed_count_never_decreases (v : string) :
  (forall (role_vendor_list : list (list string)) (cd tb : Counter),
     counter_get tb v
     <= counter_get (snd (fst (tally_loop role_vendor_list cd tb))) v)
  /\ (forall (pre : list string) (line : string) (cl : list string),
        counter_get
          (testbed_vendor_dict (snd (for_lines pre (initial_state cl)))) v
        <= counter_get
             (testbed_vendor_dict
                (snd (for_lines (pre ++ [line]) (initial_state cl)))) v).
Proof.
  split.
  - intros rvl cd tb. apply tally_loop_mono.
  - intros pre line cl. rewrite for_lines_snoc.
    destruct (for_lines pre (initial_state cl)) as [[| |e] st]; simpl;
      try lia.
    apply (line_step_mono v st line (fst (process_line line st))).
    apply process_line_step.
Qed.

(** ** C4: a line without a [-] *)

Lemma process_line_no_dash (line : string) (st : state) :
  line <> ""%string ->
  match_comment (strip line) = false ->
  contains dash (strip line) = false ->
  process_line line st
  = (Raise AttributeError,
     info (LogUnrecognized (strip line) AttributeError) st).
Proof.
  intros Hne Hc Hd. unfold process_line, try_body.
  destruct (String.eqb line "") eqn:E.
  - apply String.eqb_eq in E. contradiction.
  - now rewrite Hc, (match_case_no_dash _ Hd).
Qed.

(** The file never yields an empty line, so the [break] of line 94 is not
    taken. *)
Lemma for_lines_no_break (lines : list string) (st : state) :
  Forall (fun line => line <> ""%string) lines ->
  fst (for_lines lines st) <> Break.
Proof.
  intros H. revert st.
  induction H as [|line rest Hne _ IH]; intros st; simpl.
  - discriminate.
  - pose proof (process_line_step line st) as S.
    destruct (process_line line st) as [[| |e] st']; simpl in *.
    + apply IH.
    + inversion S. contradiction.
    + discriminate.
Qed.

Lemma file_lines_nonempty (content : string) :
  Forall (fun line => line <> ""%string) (file_lines content).
Proof.
  induction content as [|c rest IH]; simpl; [constructor|].
  destruct (Ascii.eqb c newline).
  - constructor; [discriminate|exact IH].
  - destruct (file_lines rest) as [|l ls].
    + repeat constructor. discriminate.
    + inversion IH; subst. constructor; [discriminate|assumption].
Qed.

(** C4.  Take a line that, once stripped, is not blank, is not a comment
    and holds no [-].  When the lines before it are processed without
    stopping, the run ends at this line with the exception of the failed
    match, the line is reported as unrecognized, and the state is the one
    the earlier lines left: nothing of the later lines is read.  And
    whatever non-empty lines come before it, the run ends with an
    exception, with the same result as if the stream ended at this
    line. *)
Theorem line_without_dash_is_fatal (line : string) :
  strip line <> ""%string ->
  match_comment (strip line) = false ->
  contains dash (strip line) = false ->
  (forall (pre post cl : list string) (st : state),
     for_lines pre (initial_state cl) = (Next, st) ->
     device_calculate (pre ++ line :: post) cl
     = (Some AttributeError,
        info (LogUnrecognized (strip line) AttributeError) st))
  /\ (forall pre post cl : list string,
        Forall (fun l => l <> ""%string) pre ->
        (exists e, fst (device_calculate (pre ++ line :: post) cl) = Some e)
        /\ device_calculate (pre ++ line :: post) cl
           = device_calculate (pre ++ [line]) cl).
Proof.
  intros Hblank Hc Hd.
  assert (Hne : line <> ""%string) by (intros ->; now apply Hblank).
  split.
  - intros pre post cl st Hpre. unfold device_calculate.
    rewrite for_lines_app, Hpre. simpl.
    now rewrite (process_line_no_dash line st Hne Hc Hd).
  - intros pre post cl Hpre. unfold device_calculate.
    rewrite !for_lines_app.
    pose proof (for_lines_no_break pre (initial_state cl) Hpre) as Hnb.
    destruct (for_lines pre (initial_state cl)) as [[| |e] st]; simpl in *.
    + rewrite (process_line_no_dash line st Hne Hc Hd). simpl. eauto.
    + contradiction.
    + eauto.
Qed.

Lemma line_without_dash_is_fatal_witness :
  device_calculate (topo_example ++ ("5.3.1 Leader:ARM" ++ nl)%string
                                 :: two_then_five) ["all"%string]
  = (Some AttributeError,
     mkState [("ARM", 2); ("OpenThread", 1); ("Kirale", 1); ("SiLabs", 1)]
             ["all"]
             [ LogCase "5.1.1";
               LogPairs [["Leader"; "ARM"]; ["Router_1"; "ARM"]];
               LogVendorDevices [("ARM", 2)];
               LogCase "5.2.1";
               LogPairs [["Leader"; "OpenThread"]; ["REED_1"; "Kirale"];
                         ["MED_1"; "SiLabs"]];
               LogVendorDevices
                 [("OpenThread", 1); ("Kirale", 1); ("SiLabs", 1)];
               LogUnrecognized "5.3.1 Leader:ARM" AttributeError ])%string.
Proof.
  destruct (line_without_dash_is_fatal ("5.3.1 Leader:ARM" ++ nl)%string)
    as [H _]; [discriminate|reflexivity|reflexivity|].
  rewrite (H topo_example two_then_five ["all"%string]
             (snd (for_lines topo_example (initial_state ["all"%string]))));
    reflexivity.
Defined.

(** ** The selection list *)

Lemma list_in_In (x : string) (l : list string) :
  list_in x l = true <-> In x l.
Proof.
  induction l as [|y l IH]; simpl.
  - split; [discriminate|tauto].
  - rewrite orb_true_iff, String.eqb_eq, IH. tauto.
Qed.

Lemma list_in_not_In (x : string) (l : list string) :
  list_in x l = false <-> ~ In x l.
Proof.
  rewrite <- list_in_In. destruct (list_in x l); split; congruence.
Qed.

Lemma list_remove_incl (g a : string) (l l' : list string) :
  list_remove g l = Some l' -> In a l' -> In a l.
Proof.
  revert l'. induction l as [|y l IH]; intros l'; simpl; [discriminate|].
  destruct (String.eqb y g).
  - intros [= <-]. tauto.
  - destruct (list_remove g l) as [r|]; simpl; [|discriminate].
    intros [= <-] [<-|H]; [tauto|]. right. now apply (IH r).
Qed.

Lemma list_remove_keeps (g x : string) (l l' : list string) :
  list_remove g l = Some l' -> g <> x -> In x l -> In x l'.
Proof.
  revert l'. induction l as [|y l IH]; intros l'; simpl; [discriminate|].
  destruct (String.eqb y g) eqn:E.
  - apply String.eqb_eq in E. subst y.
    intros [= <-] Hg [H|H]; [contradiction|exact H].
  - destruct (list_remove g l) as [r|]; simpl; [|discriminate].
    intros [= <-] Hg [<-|H]; [now left|]. right. now apply IH.
Qed.

Lemma list_remove_NoDup (g : string) (l l' : list string) :
  NoDup l -> list_remove g l = Some l' -> NoDup l' /\ ~ In g l'.
Proof.
  revert l'. induction l as [|y l IH]; intros l' Hnd; simpl; [discriminate|].
  inversion Hnd as [|? ? Hy Hl]; subst.
  destruct (String.eqb y g) eqn:E.
  - apply String.eqb_eq in E. subst y. intros [= <-]. now split.
  - apply String.eqb_neq in E.
    destruct (list_remove g l) as [r|] eqn:R; simpl; [|discriminate].
    intros [= <-]. destruct (IH r Hl eq_refl) as [Hr Hg]. split.
    + constructor; [|exact Hr]. intros Hin. apply Hy.
      now apply (list_remove_incl g y l r).
    + intros [->|Hin]; [now apply E|now apply Hg].
Qed.

Lemma list_in_inserted (g x : string) (l l' : list string) :
  g <> x -> inserted x l l' -> list_in g l' = list_in g l.
Proof.
  intros Hg (r1 & r2 & -> & ->).
  induction r1 as [|y r1 IH]; simpl.
  - destruct (String.eqb x g) eqn:E; [|reflexivity].
    apply String.eqb_eq in E. congruence.
  - now rewrite IH.
Qed.

Lemma list_remove_inserted (g x : string) (l l' r : list string) :
  g <> x -> inserted x l l' -> list_remove g l = Some r ->
  exists r', list_remove g l' = Some r' /\ inserted x r r'.
Proof.
  intros Hg (r1 & r2 & -> & ->). revert r.
  induction r1 as [|y r1 IH]; intros r; simpl.
  - intros Hr. destruct (String.eqb x g) eqn:E.
    + apply String.eqb_eq in E. congruence.
    + rewrite Hr. simpl. exists (x :: r). split; [reflexivity|].
      now exists [], r.
  - destruct (String.eqb y g).
    + intros [= <-]. exists (r1 ++ x :: r2). split; [reflexivity|].
      now exists r1, r2.
    + destruct (list_remove g (r1 ++ r2)) as [r0|]; simpl; [|discriminate].
      intros [= <-]. destruct (IH r0 eq_refl) as (r' & -> & q1 & q2 & -> & ->).
      simpl. exists (y :: q1 ++ x :: q2). split; [reflexivity|].
      now exists (y :: q1), q2.
Qed.

Lemma case_id_of_record (line id rv : string) :
  match_comment (strip line) = false ->
  match_case (strip line) = Some (id, rv) ->
  case_id_of line = Some id.
Proof.
  intros Hc Hm. unfold case_id_of, is_comment_line. now rewrite Hc, Hm.
Qed.

(** ** Facts shared by the properties below *)

Lemma case_list_finish (st : state) :
  case_list (finish st) = case_list st.
Proof.
  unfold finish.
  destruct (case_list st) as [|y l] eqn:E;
    [|destruct (negb (list_in "all" (y :: l)))]; simpl; now rewrite ?E.
Qed.

Lemma counter_set_ge (n : Z) (d : Counter) (k : string) (x : Z) :
  n <= x ->
  Forall (fun kv => n <= snd kv) d ->
  Forall (fun kv => n <= snd kv) (counter_set d k x).
Proof.
  intros Hx H. induction H as [|[k0 v0] d Hk Hd IH]; simpl.
  - constructor; [exact Hx|constructor].
  - destruct (String.eqb k0 k); constructor; simpl; assumption.
Qed.

Lemma counter_get_ge (n : Z) (d : Counter) (k : string) :
  Forall (fun kv => n <= snd kv) d ->
  counter_mem k d = true -> n <= counter_get d k.
Proof.
  intros H. induction H as [|[k0 v0] d Hk _ IH]; simpl; [discriminate|].
  destruct (String.eqb k0 k); simpl; auto.
Qed.

Lemma counter_get_absent (d : Counter) (k : string) :
  counter_mem k d = false -> counter_get d k = 0.
Proof.
  induction d as [|[k0 v0] d IH]; simpl; [reflexivity|].
  destruct (String.eqb k0 k); simpl; [discriminate|exact IH].
Qed.

Lemma counter_get_nonneg (d : Counter) (k : string) :
  Forall (fun kv => 1 <= snd kv) d -> 0 <= counter_get d k.
Proof.
  intros H. destruct (counter_mem k d) eqn:E.
  - pose proof (counter_get_ge 1 d k H E). lia.
  - rewrite (counter_get_absent d k E). lia.
Qed.

Lemma tally_loop_positive (rvl : list (list string)) (cd tb : Counter) :
  Forall (fun kv => 1 <= snd kv) cd ->
  Forall (fun kv => 1 <= snd kv) tb ->
  Forall (fun kv => 1 <= snd kv) (snd (fst (tally_loop rvl cd tb))).
Proof.
  revert cd tb. induction rvl as [|t rest IH]; intros cd tb Hcd Htb; simpl.
  - exact Htb.
  - destruct t as [|role [|vendor [|extra t]]]; simpl; try exact Htb.
    pose proof (counter_get_nonneg cd vendor Hcd) as Hn.
    apply IH.
    + apply counter_set_ge; [lia|exact Hcd].
    + apply counter_set_ge; [|exact Htb].
      rewrite counter_get_set, String.eqb_refl. lia.
Qed.

Lemma line_step_positive (st : state) (line : string) (c : control)
    (st' : state) :
  Forall (fun kv => 1 <= snd kv) (testbed_vendor_dict st) ->
  line_step st line c st' ->
  Forall (fun kv => 1 <= snd kv) (testbed_vendor_dict st').
Proof.
  intros H S.
  destruct S as [ | | | | id rv ? ? ? ? ? ? ? ? Ht | id rv ? ? ? ? ? ? ? Ht ];
    simpl; try exact H;
    pose proof (tally_loop_positive
                  (map (re_split colon) (re_split comma rv)) []
                  (testbed_vendor_dict st) (Forall_nil _) H) as N;
    now rewrite Ht in N.
Qed.

Lemma tally_loop_outcome (rvl : list (list string)) (cd tb : Counter) :
  snd (tally_loop rvl cd tb)
  = if forallb (fun t => (length t =? 2)%nat) rvl then None
    else Some ValueError.
Proof.
  revert cd tb. induction rvl as [|t rest IH]; intros cd tb; simpl.
  - reflexivity.
  - destruct t as [|role [|vendor [|extra t]]]; simpl; try reflexivity.
    apply IH.
Qed.

Lemma pair_tokens_map (rv : string) :
  forallb (fun t => (length t =? 2)%nat)
          (map (re_split colon) (re_split comma rv))
  = pair_tokens rv.
Proof.
  unfold pair_tokens. generalize (re_split comma rv). intros l.
  induction l as [|t l IH]; simpl; [reflexivity|]. now rewrite IH.
Qed.

(** ** C7: identifiers that match no record *)

(** An identifier that is not the one of the line, put into the selection,
    changes nothing in what the iteration does but stays in the
    selection. *)
Lemma process_line_inserted (x line : string) (st st' : state) :
  x <> "all"%string -> case_id_of line <> Some x ->
  same_but_selection x st st' ->
  fst (process_line line st') = fst (process_line line st)
  /\ same_but_selection x (snd (process_line line st))
                          (snd (process_line line st')).
Proof.
  intros Hall Hid.
  destruct st as [tb cl lg], st' as [tb' cl' lg'].
  intros (Htb & Hlg & Hins). simpl in Htb, Hlg, Hins. subst tb' lg'.
  unfold process_line.
  destruct (String.eqb line "").
  { simpl. split; [reflexivity|]. now repeat split. }
  unfold try_body, case_id_of, is_comment_line in *.
  destruct (match_comment (strip line)).
  { simpl. split; [reflexivity|]. now repeat split. }
  destruct (match_case (strip line)) as [[id rv]|].
  2: { simpl. split; [reflexivity|]. now repeat split. }
  assert (Hne : id <> x) by (intros ->; now apply Hid).
  simpl.
  rewrite (list_in_inserted "all" x cl cl') by (auto; congruence).
  rewrite (list_in_inserted id x cl cl') by auto.
  destruct (list_in "all" cl); simpl.
  - destruct (tally_loop (map (re_split colon) (re_split comma rv)) [] tb)
      as [[cd tb1] [e|]]; simpl; (split; [reflexivity|]); now repeat split.
  - destruct (list_in id cl) eqn:Hin; simpl.
    + destruct (list_remove_listed _ _ Hin) as [r Hr].
      destruct (list_remove_inserted id x cl cl' r Hne Hins Hr)
        as (r' & Hr' & Hins').
      rewrite Hr, Hr'. simpl.
      destruct (tally_loop (map (re_split colon) (re_split comma rv)) [] tb)
        as [[cd tb1] [e|]]; simpl; (split; [reflexivity|]); now repeat split.
    + split; [reflexivity|]. now repeat split.
Qed.

Lemma for_lines_inserted (x : string) (lines : list string) :
  x <> "all"%string -> unmatched x lines ->
  forall st st',
    same_but_selection x st st' ->
    fst (for_lines lines st') = fst (for_lines lines st)
    /\ same_but_selection x (snd (for_lines lines st))
                            (snd (for_lines lines st')).
Proof.
  intros Hall Hun.
  induction Hun as [|line rest Hid _ IH]; intros st st' Hsame; simpl.
  - now split.
  - destruct (process_line_inserted x line st st' Hall Hid Hsame)
      as [Hc Hs].
    destruct (process_line line st) as [c st1],
             (process_line line st') as [c' st1'].
    simpl in Hc, Hs. subst c'.
    destruct c; simpl; auto.
Qed.

Lemma without_not_found_app (l1 l2 : list log_record) :
  without_not_found (l1 ++ l2)
  = without_not_found l1 ++ without_not_found l2.
Proof. apply filter_app. Qed.

Lemma finish_inserted (x : string) (st st' : state) :
  same_but_selection x st st' ->
  testbed_vendor_dict (finish st') = testbed_vendor_dict (finish st)
  /\ without_not_found (log (finish st'))
     = without_not_found (log (finish st)).
Proof.
  destruct st as [tb cl lg], st' as [tb' cl' lg'].
  intros (Htb & Hlg & _). simpl in Htb, Hlg. subst tb' lg'.
  unfold finish. simpl. split.
  - destruct cl', cl; simpl;
      repeat match goal with
             | |- context [if ?b then _ else _] => destruct b; simpl
             end; reflexivity.
  - destruct cl', cl; simpl;
      repeat match goal with
             | |- context [if ?b then _ else _] => destruct b; simpl
             end;
      rewrite ?without_not_found_app; simpl; rewrite ?app_nil_r;
      reflexivity.
Qed.

Lemma for_lines_invariant_on (P : state -> Prop) (L : string -> Prop) :
  (forall st line c st', L line -> P st -> line_step st line c st' -> P st') ->
  forall lines st,
    Forall L lines -> P st -> P (snd (for_lines lines st)).
Proof.
  intros Hstep lines st HL. revert st.
  induction HL as [|line rest Hl _ IH]; intros st H; simpl.
  - exact H.
  - pose proof (process_line_step line st) as S.
    destruct (process_line line st) as [c st']. simpl in S.
    pose proof (Hstep _ _ _ _ Hl H S) as H'.
    destruct c; simpl; auto.
Qed.

(** An explicit selection stays explicit. *)
Lemma selects_explicit (id : string) (cl cl' : list string) :
  selects id cl cl' ->
  list_in "all" cl = false -> list_in "all" cl' = false.
Proof.
  intros [Hall|r _ _ Hr] Hcl; [exact Hcl|].
  apply list_in_not_In. intros Hin. apply list_in_not_In in Hcl.
  apply Hcl. now apply (list_remove_incl id "all"%string cl r).
Qed.

Lemma selects_keeps (id x : string) (cl cl' : list string) :
  selects id cl cl' -> id <> x -> In x cl -> In x cl'.
Proof.
  intros [Hall|r _ _ Hr] Hne Hin; [exact Hin|].
  now apply (list_remove_keeps id x cl r).
Qed.

(** An identifier of the selection that is not the one of the line is
    still in the selection after the iteration. *)
Lemma line_step_keeps (x : string) (st : state) (line : string)
    (c : control) (st' : state) :
  case_id_of line <> Some x ->
  list_in "all" (case_list st) = false /\ In x (case_list st) ->
  line_step st line c st' ->
  list_in "all" (case_list st') = false /\ In x (case_list st').
Proof.
  intros Hid [Hall Hin] S.
  destruct S as [ | | | | id rv cl' ? ? e ? Hc Hm Hsel Ht
                  | id rv cl' ? ? ? Hc Hm Hsel Ht ]; simpl; auto.
  all: assert (Hne : id <> x)
    by (intros ->; apply Hid; now apply (case_id_of_record line x rv)).
  all: split; [now apply (selects_explicit id (case_list st))
              |now apply (selects_keeps id x (case_list st))].
Qed.

(** *** What is left of the selection *)

Lemma line_step_explicit_NoDup (st : state) (line : string) (c : control)
    (st' : state) :
  list_in "all" (case_list st) = false /\ NoDup (case_list st) ->
  line_step st line c st' ->
  list_in "all" (case_list st') = false /\ NoDup (case_list st').
Proof.
  intros [Hall Hnd] S.
  destruct S as [ | | | | id rv cl' ? ? e ? Hc Hm Hsel Ht
                  | id rv cl' ? ? ? Hc Hm Hsel Ht ]; simpl; auto.
  all: split; [now apply (selects_explicit id (case_list st))|].
  all: destruct Hsel as [|r _ _ Hr]; [exact Hnd|].
  all: now apply (list_remove_NoDup id (case_list st) r).
Qed.

Lemma list_remove_count (g y : string) (l l' : list string) :
  list_remove g l = Some l' ->
  count_occ string_dec l' y
  = (count_occ string_dec l y - (if string_dec g y then 1 else 0))%nat.
Proof.
  revert l'. induction l as [|y0 l IH]; intros l'; simpl; [discriminate|].
  destruct (String.eqb y0 g) eqn:E.
  - apply String.eqb_eq in E. subst y0. intros [= <-].
    destruct (string_dec g y); lia.
  - apply String.eqb_neq in E.
    destruct (list_remove g l) as [r|]; simpl; [|discriminate].
    intros [= <-]. simpl. rewrite (IH r eq_refl).
    destruct (string_dec y0 y), (string_dec g y); try lia. congruence.
Qed.

Lemma record_ids_cons (line : string) (rest : list string) :
  record_ids (line :: rest) = record_ids [line] ++ record_ids rest.
Proof. simpl. now destruct (case_id_of line). Qed.

(** Every iteration that goes on takes the identifier of its line out of
    an explicit selection once, when it is there. *)
Lemma line_step_count (st : state) (line : string) (st' : state) (y : string) :
  list_in "all" (case_list st) = false ->
  line_step st line Next st' ->
  count_occ string_dec (case_list st') y
  = (count_occ string_dec (case_list st) y
     - count_occ string_dec (record_ids [line]) y)%nat.
Proof.
  intros Hall S. remember Next as c eqn:Ec.
  destruct S as [ | Hl Hc | | id rv Hl Hc Hm Ha Hi
                  | id rv cl' cd tb e Hl Hc Hm Hsel Ht
                  | id rv cl' cd tb Hl Hc Hm Hsel Ht ];
    try discriminate Ec.
  - unfold record_ids, case_id_of, is_comment_line. rewrite Hc. simpl. lia.
  - simpl. rewrite (case_id_of_record line id rv Hc Hm). simpl.
    destruct (string_dec id y) as [->|]; [|lia].
    apply list_in_not_In in Hi.
    apply (count_occ_not_In string_dec) in Hi. lia.
  - simpl. rewrite (case_id_of_record line id rv Hc Hm). simpl.
    destruct Hsel as [Ha|r _ _ Hr]; [congruence|].
    rewrite (list_remove_count id y _ r Hr).
    destruct (string_dec id y); reflexivity.
Qed.

Lemma for_lines_count (lines : list string) (st st' : state) (y : string) :
  list_in "all" (case_list st) = false ->
  for_lines lines st = (Next, st') ->
  count_occ string_dec (case_list st') y
  = (count_occ string_dec (case_list st) y
     - count_occ string_dec (record_ids lines) y)%nat.
Proof.
  revert st. induction lines as [|line rest IH]; intros st Hall; simpl.
  - intros [= <-]. lia.
  - pose proof (process_line_step line st) as S.
    destruct (process_line line st) as [c st1]. simpl in S.
    destruct c; try discriminate. intros Hrest.
    assert (Hall1 : list_in "all" (case_list st1) = false).
    { remember Next as c eqn:Ec.
      destruct S as [ | | | | ? ? ? ? ? ? ? ? ? Hsel ?
                      | ? ? ? ? ? ? ? ? Hsel ? ]; simpl; auto;
        now apply (selects_explicit _ _ _ Hsel). }
    rewrite (IH st1 Hall1 Hrest), (line_step_count st line st1 y Hall S).
    change (match case_id_of line with
            | Some id => id :: record_ids rest
            | None => record_ids rest
            end) with (record_ids (line :: rest)).
    rewrite (record_ids_cons line rest), count_occ_app. lia.
Qed.

Lemma list_remove_filter (g : string) (l l' : list string) :
  NoDup l -> list_remove g l = Some l' ->
  l' = filter (fun y => negb (String.eqb g y)) l.
Proof.
  revert l'. induction l as [|y0 l IH]; intros l' Hnd; simpl; [discriminate|].
  inversion Hnd as [|? ? Hy Hl]; subst.
  rewrite (String.eqb_sym g y0).
  destruct (String.eqb y0 g) eqn:E; simpl.
  - apply String.eqb_eq in E. subst y0. intros [= <-].
    clear IH Hnd Hl. induction l as [|z l IH]; simpl; [reflexivity|].
    destruct (String.eqb g z) eqn:Ez.
    + apply String.eqb_eq in Ez. subst z. simpl in Hy. tauto.
    + simpl. f_equal. apply IH. simpl in Hy. tauto.
  - destruct (list_remove g l) as [r|]; simpl; [|discriminate].
    intros [= <-]. f_equal. now apply IH.
Qed.

Lemma filter_absent (g : string) (l : list string) :
  list_in g l = false -> filter (fun y => negb (String.eqb g y)) l = l.
Proof.
  induction l as [|z l IH]; simpl; [reflexivity|].
  rewrite (String.eqb_sym g z).
  destruct (String.eqb z g); simpl; [discriminate|].
  intros H. now rewrite IH.
Qed.

Lemma filter_then_filter (p q : string -> bool) (l : list string) :
  filter p (filter q l) = filter (fun y => q y && p y) l.
Proof.
  induction l as [|z l IH]; simpl; [reflexivity|].
  destruct (q z); simpl; [destruct (p z)|]; now rewrite IH.
Qed.

Lemma for_lines_leftover (lines : list string) (st st' : state) :
  list_in "all" (case_list st) = false -> NoDup (case_list st) ->
  for_lines lines st = (Next, st') ->
  case_list st'
  = filter (fun y => negb (list_in y (record_ids lines))) (case_list st).
Proof.
  revert st. induction lines as [|line rest IH]; intros st Hall Hnd; simpl.
  - intros [= <-]. generalize (case_list st). intros l.
    induction l as [|z l IHl]; simpl; [reflexivity|now rewrite <- IHl].
  - pose proof (process_line_step line st) as S.
    destruct (process_line line st) as [c st1]. simpl in S.
    destruct c; try discriminate. intros Hrest.
    destruct (line_step_explicit_NoDup st line Next st1 (conj Hall Hnd) S)
      as [Hall1 Hnd1].
    rewrite (IH st1 Hall1 Hnd1 Hrest). clear IH Hrest.
    remember Next as c eqn:Ec.
    destruct S as [ | Hl Hc | | id rv Hl Hc Hm Ha Hi
                    | id rv cl' cd tb e Hl Hc Hm Hsel Ht
                    | id rv cl' cd tb Hl Hc Hm Hsel Ht ];
      try discriminate Ec.
    + unfold case_id_of, is_comment_line. now rewrite Hc.
    + rewrite (case_id_of_record line id rv Hc Hm).
      rewrite <- (filter_absent id (case_list st) Hi) at 1.
      rewrite filter_then_filter. apply filter_ext. intros y. simpl.
      now rewrite negb_orb.
    + rewrite (case_id_of_record line id rv Hc Hm). simpl.
      destruct Hsel as [Ha|r _ _ Hr]; [congruence|].
      rewrite (list_remove_filter id _ r Hnd Hr).
      rewrite filter_then_filter. apply filter_ext. intros y. simpl.
      now rewrite negb_orb.
Qed.

Lemma line_step_no_not_found (st : state) (line : string) (c : control)
    (st' : state) :
  existsb is_not_found (log st) = false ->
  line_step st line c st' ->
  existsb is_not_found (log st') = false.
Proof.
  intros H S.
  destruct S; simpl; auto; rewrite !existsb_app, H; reflexivity.
Qed.

(** C7.  An identifier [x] of the selection that is the identifier of no
    case record of the stream is not an error.  With or without [x] in
    the selection the run ends the same way, with the same test-bed
    counter and the same report apart from the 'not found' record.  When
    the selection is explicit and the run reaches the end of the stream,
    [x] is still in the selection, and the selection that is left is
    reported as not found, after the cases and before the final
    counter.  What is left, and so what is reported, is the selection
    without the identifiers that were matched: an identifier is left as
    often as it was listed, less the number of case records that carry
    it; for a selection without repetitions this is the list of the
    identifiers that are the identifier of no case record, in the order
    in which they were given.  The report is made once, and it is not
    made when nothing is left.  Selecting only 9.9.9 in a file with the
    single case 5.1.1 gives the empty counter and the not-found list
    9.9.9. *)
Theorem unmatched_ids_reported_not_fatal :
  (forall (x : string) (lines cl1 cl2 : list string),
     x <> "all"%string -> unmatched x lines ->
     fst (device_calculate lines (cl1 ++ x :: cl2))
     = fst (device_calculate lines (cl1 ++ cl2))
     /\ testbed_vendor_dict (snd (device_calculate lines (cl1 ++ x :: cl2)))
        = testbed_vendor_dict (snd (device_calculate lines (cl1 ++ cl2)))
     /\ without_not_found (log (snd (device_calculate lines (cl1 ++ x :: cl2))))
        = without_not_found (log (snd (device_calculate lines (cl1 ++ cl2)))))
  /\ (forall (x : string) (lines cl : list string) (st : state),
        list_in "all" cl = false -> In x cl -> unmatched x lines ->
        device_calculate lines cl = (None, st) ->
        In x (case_list st)
        /\ exists cases,
            log st = cases ++ [ LogNotFound (case_list st);
                                LogTestbed (testbed_vendor_dict st) ])
  /\ (forall (lines cl : list string) (st : state),
        list_in "all" cl = false ->
        Forall (fun line => line <> ""%string) lines ->
        device_calculate lines cl = (None, st) ->
        (forall y,
           count_occ string_dec (case_list st) y
           = (count_occ string_dec cl y
              - count_occ string_dec (record_ids lines) y)%nat)
        /\ (NoDup cl ->
            case_list st
            = filter (fun y => negb (list_in y (record_ids lines))) cl
            /\ forall y, In y (case_list st)
                         <-> In y cl /\ ~ In y (record_ids lines))
        /\ match case_list st with
           | [] => existsb is_not_found (log st) = false
           | _ :: _ =>
               exists cases,
                 log st = cases ++ [ LogNotFound (case_list st);
                                     LogTestbed (testbed_vendor_dict st) ]
                 /\ existsb is_not_found cases = false
           end)
  /\ device_calculate only_5_1_1 ["9.9.9"%string]
     = (None, mkState [] ["9.9.9"%string]
                      [LogNotFound ["9.9.9"%string]; LogTestbed []]).
Proof.
  split; [|split; [|split]].
  - intros x lines cl1 cl2 Hall Hun.
    assert (Hsame : same_but_selection x (initial_state (cl1 ++ cl2))
                      (initial_state (cl1 ++ x :: cl2))).
    { repeat split. now exists cl1, cl2. }
    destruct (for_lines_inserted x lines Hall Hun _ _ Hsame) as [Hc Hs].
    unfold device_calculate.
    destruct (for_lines lines (initial_state (cl1 ++ cl2))) as [c st],
             (for_lines lines (initial_state (cl1 ++ x :: cl2))) as [c' st'].
    simpl in Hc, Hs. subst c'.
    destruct (finish_inserted x st st' Hs) as [Htb Hlog].
    destruct Hs as (Htb0 & Hlg0 & _).
    destruct c; simpl; auto.
    rewrite Htb0, Hlg0. auto.
  - intros x lines cl st Hall Hin Hun Hrun.
    pose proof (for_lines_invariant_on
                  (fun st => list_in "all" (case_list st) = false
                             /\ In x (case_list st))
                  (fun line => case_id_of line <> Some x)
                  (fun st line c st' Hl => line_step_keeps x st line c st' Hl)
                  lines (initial_state cl) Hun (conj Hall Hin)) as [Ha Hx].
    unfold device_calculate in Hrun.
    destruct (for_lines lines (initial_state cl)) as [c st0].
    simpl in Ha, Hx.
    assert (Hfin : st = finish st0)
      by (destruct c; [now inversion Hrun| now inversion Hrun|discriminate]).
    subst st. unfold finish.
    destruct (case_list st0) as [|y l] eqn:Hcl; [destruct Hx|].
    rewrite Ha. simpl. rewrite Hcl. split; [exact Hx|].
    exists (log st0). now rewrite <- app_assoc.
  - intros lines cl st Hall Hne Hrun.
    pose proof (for_lines_no_break lines (initial_state cl) Hne) as Hnb.
    pose proof (for_lines_invariant
                  (fun st => existsb is_not_found (log st) = false)
                  line_step_no_not_found lines (initial_state cl) eq_refl)
      as Hlog.
    unfold device_calculate in Hrun.
    destruct (for_lines lines (initial_state cl)) as [c st0] eqn:Hfor.
    simpl in Hnb, Hlog.
    destruct c as [| |e]; [|contradiction|discriminate].
    injection Hrun as <-. rewrite case_list_finish.
    assert (Hcount : forall y,
               count_occ string_dec (case_list st0) y
               = (count_occ string_dec cl y
                  - count_occ string_dec (record_ids lines) y)%nat).
    { intros y.
      exact (for_lines_count lines (initial_state cl) st0 y Hall Hfor). }
    split; [exact Hcount|]. split.
    + intros Hnd.
      pose proof (for_lines_leftover lines (initial_state cl) st0
                    Hall Hnd Hfor) as Hleft.
      simpl in Hleft. split; [exact Hleft|].
      intros y. rewrite Hleft, filter_In, negb_true_iff, list_in_not_In.
      tauto.
    + assert (Ha0 : list_in "all" (case_list st0) = false).
      { apply list_in_not_In. apply (count_occ_not_In string_dec).
        rewrite Hcount. apply list_in_not_In in Hall.
        apply (count_occ_not_In string_dec) in Hall. lia. }
      unfold finish. destruct (case_list st0) as [|z l] eqn:Hcl.
      * simpl. rewrite existsb_app, Hlog. reflexivity.
      * rewrite Ha0. simpl. exists (log st0).
        split; [now rewrite <- app_assoc|exact Hlog].
  - reflexivity.
Qed.

Lemma unmatched_ids_reported_not_fatal_witness :
  unmatched "9.9.9" topo_example
  /\ (fst (device_calculate topo_example ["5.2.1"; "9.9.9"; "5.1.1"]%string)
      = fst (device_calculate topo_example ["5.2.1"; "5.1.1"]%string)
      /\ testbed_vendor_dict
           (snd (device_calculate topo_example
                                  ["5.2.1"; "9.9.9"; "5.1.1"]%string))
         = testbed_vendor_dict
             (snd (device_calculate topo_example ["5.2.1"; "5.1.1"]%string))
      /\ without_not_found
           (log (snd (device_calculate topo_example
                                       ["5.2.1"; "9.9.9"; "5.1.1"]%string)))
         = without_not_found
             (log (snd (device_calculate topo_example
                                         ["5.2.1"; "5.1.1"]%string))))
  /\ In "9.9.9"%string
        (case_list (snd (device_calculate topo_example
                                          ["5.2.1"; "9.9.9"; "5.1.1"]%string)))
  /\ case_list (snd (device_calculate topo_example
                                      ["5.2.1"; "9.9.9"; "5.1.1"]%string))
     = ["9.9.9"%string]
  /\ count_occ string_dec
       (case_list (snd (device_calculate
                          (topo_example ++ [record_5_1_1_again])
                          ["5.1.1"; "9.9.9"; "5.1.1"; "5.1.1"]%string)))
       "5.1.1"%string
     = 1%nat.
Proof.
  assert (Hun : unmatched "9.9.9" topo_example).
  { constructor; [vm_compute; discriminate|].
    constructor; [vm_compute; discriminate|]. constructor. }
  destruct unmatched_ids_reported_not_fatal as (Hsame & Hleft & Hexact & _).
  split; [exact Hun|]. split; [|split; [|split]].
  - apply (Hsame "9.9.9"%string topo_example ["5.2.1"%string]
                 ["5.1.1"%string]); [discriminate|exact Hun].
  - apply (Hleft "9.9.9"%string topo_example
                 ["5.2.1"; "9.9.9"; "5.1.1"]%string
                 (snd (device_calculate topo_example
                                        ["5.2.1"; "9.9.9"; "5.1.1"]%string))).
    + reflexivity.
    + simpl. tauto.
    + exact Hun.
    + reflexivity.
  - destruct (Hexact topo_example ["5.2.1"; "9.9.9"; "5.1.1"]%string
                     (snd (device_calculate topo_example
                             ["5.2.1"; "9.9.9"; "5.1.1"]%string)))
      as (_ & Hnd & _).
    + reflexivity.
    + repeat constructor; discriminate.
    + reflexivity.
    + destruct Hnd as [Hlist _].
      * repeat constructor; simpl; intuition discriminate.
      * rewrite Hlist. reflexivity.
  - destruct (Hexact (topo_example ++ [record_5_1_1_again])
                     ["5.1.1"; "9.9.9"; "5.1.1"; "5.1.1"]%string
                     (snd (device_calculate
                             (topo_example ++ [record_5_1_1_again])
                             ["5.1.1"; "9.9.9"; "5.1.1"; "5.1.1"]%string)))
      as (Hcount & _).
    + reflexivity.
    + repeat constructor; discriminate.
    + reflexivity.
    + rewrite Hcount. reflexivity.
Defined.

(** ** C10: records that share an identifier *)

Lemma case_id_of_inv (line id : string) :
  case_id_of line = Some id ->
  line <> ""%string
  /\ match_comment (strip line) = false
  /\ exists rv, match_case (strip line) = Some (id, rv).
Proof.
  unfold case_id_of, is_comment_line. intros H. split.
  - intros ->. discriminate H.
  - destruct (match_comment (strip line)); [discriminate|].
    split; [reflexivity|].
    destruct (match_case (strip line)) as [[g rv]|]; [|discriminate].
    simpl in H. injection H as ->. now exists rv.
Qed.

(** Under an explicit selection, a record whose identifier is not listed
    leaves no trace. *)
Lemma process_line_skips (line id : string) (st : state) :
  case_id_of line = Some id ->
  list_in "all" (case_list st) = false ->
  list_in id (case_list st) = false ->
  process_line line st = (Next, st).
Proof.
  intros Hid Hall Hin.
  destruct (case_id_of_inv line id Hid) as (Hne & Hc & rv & Hm).
  unfold process_line, try_body.
  apply String.eqb_neq in Hne. rewrite Hne, Hc, Hm, Hall, Hin. reflexivity.
Qed.

Lemma line_step_absent (id : string) (st : state) (line : string)
    (c : control) (st' : state) :
  ~ In id (case_list st) ->
  line_step st line c st' ->
  ~ In id (case_list st').
Proof.
  intros Hid S.
  destruct S as [ | | | | id' rv cl' ? ? e ? Hc Hm Hsel Ht
                  | id' rv cl' ? ? ? Hc Hm Hsel Ht ]; simpl; auto.
  all: destruct Hsel as [|r _ _ Hr]; [exact Hid|].
  all: intros Hin; apply Hid; now apply (list_remove_incl id' id _ r).
Qed.

(** Once a record with identifier [id] has been passed under an explicit,
    duplicate-free selection, [id] is not in the selection. *)
Lemma line_step_consumes (id : string) (st : state) (line : string)
    (st' : state) :
  list_in "all" (case_list st) = false -> NoDup (case_list st) ->
  case_id_of line = Some id ->
  line_step st line Next st' ->
  ~ In id (case_list st').
Proof.
  intros Hall Hnd Hid S.
  destruct (case_id_of_inv line id Hid) as (Hne & Hc & rv & Hm).
  remember Next as c eqn:Ec.
  destruct S as [ | | | id' rv' _ _ Hm' _ Hin'
                  | id' rv' cl' cd tb e _ _ Hm' Hsel Ht
                  | id' rv' cl' cd tb _ _ Hm' Hsel Ht ];
    try discriminate Ec; try congruence.
  - rewrite Hm in Hm'. injection Hm' as <- <-.
    now apply list_in_not_In.
  - rewrite Hm in Hm'. injection Hm' as <- <-. simpl.
    destruct Hsel as [Ha|r _ _ Hr]; [congruence|].
    now apply (list_remove_NoDup id (case_list st) r).
Qed.

(** C10.  Under an explicit selection without repeated identifiers that
    lists [id]: the first record of the stream with identifier [id] is
    processed.  Its case and its tuples are reported, [id] is taken out of
    the selection, and when its tokens are role:vendor pairs it is
    tallied: the tally that is logged gives every vendor its number of
    pairs in the record, and the test-bed count of every vendor becomes
    the larger of its count before and its number of pairs in the record.
    And once a record with identifier [id] has been passed, every later
    record with that identifier is skipped, leaving the report, the
    counter and the selection as they were. *)
Theorem only_first_record_of_an_id (cl : list string) (id : string) :
  list_in "all" cl = false -> NoDup cl -> In id cl ->
  (forall (pre : list string) (line : string) (st0 : state),
     unmatched id pre -> case_id_of line = Some id ->
     for_lines pre (initial_state cl) = (Next, st0) ->
     exists rv,
       match_case (strip line) = Some (id, rv)
       /\ (exists rest,
             log (snd (process_line line st0))
             = log st0
               ++ LogCase id
               :: LogPairs (map (re_split colon) (re_split comma rv))
               :: rest)
       /\ ~ In id (case_list (snd (process_line line st0)))
       /\ (pair_tokens rv = true ->
           exists cd,
             fst (process_line line st0) = Next
             /\ log (snd (process_line line st0))
                = log st0
                  ++ [ LogCase id;
                       LogPairs (map (re_split colon) (re_split comma rv));
                       LogVendorDevices cd ]
             /\ (forall v,
                   counter_get cd v
                   = count_vendor
                       v (map (re_split colon) (re_split comma rv)))
             /\ (forall v,
                   counter_get
                     (testbed_vendor_dict (snd (process_line line st0))) v
                   = Z.max
                       (counter_get (testbed_vendor_dict st0) v)
                       (count_vendor
                          v (map (re_split colon) (re_split comma rv))))))
  /\ (forall (pre mid : list string) (line line' : string) (st1 st2 : state),
        case_id_of line = Some id -> case_id_of line' = Some id ->
        for_lines (pre ++ [line]) (initial_state cl) = (Next, st1) ->
        for_lines mid st1 = (Next, st2) ->
        process_line line' st2 = (Next, st2)).
Proof.
  intros Hall Hnd Hin. split.
  - intros pre line st0 Hun Hid Hpre.
    pose proof (for_lines_invariant_on
                  (fun st => list_in "all" (case_list st) = false
                             /\ In id (case_list st))
                  (fun line => case_id_of line <> Some id)
                  (fun st line c st' Hl => line_step_keeps id st line c st' Hl)
                  pre (initial_state cl) Hun (conj Hall Hin)) as I.
    pose proof (for_lines_invariant
                  (fun st => list_in "all" (case_list st) = false
                             /\ NoDup (case_list st))
                  line_step_explicit_NoDup
                  pre (initial_state cl) (conj Hall Hnd)) as [_ Hnd0].
    pose proof (for_lines_invariant
                  (fun st => Forall (fun kv => 1 <= snd kv)
                                    (testbed_vendor_dict st))
                  line_step_positive pre (initial_state cl)
                  (Forall_nil _)) as Hpos.
    rewrite Hpre in I, Hnd0, Hpos. destruct I as [Ha Hi].
    simpl in Ha, Hi, Hnd0, Hpos.
    destruct (case_id_of_inv line id Hid) as (Hne & Hc & rv & Hm).
    exists rv. split; [exact Hm|].
    apply list_in_In in Hi.
    pose proof (tally_loop_outcome
                  (map (re_split colon) (re_split comma rv)) []
                  (testbed_vendor_dict st0)) as Hout.
    rewrite pair_tokens_map in Hout.
    pose proof (process_line_step line st0) as S.
    destruct (process_line line st0) as [c st1]. simpl in S. simpl.
    destruct S as [ | | | id' rv' _ _ Hm' _ Hi'
                    | id' rv' cl' cd tb e _ _ Hm' Hsel Ht
                    | id' rv' cl' cd tb _ _ Hm' Hsel Ht ];
      try congruence.
    + rewrite Hm in Hm'. injection Hm' as <- <-. simpl.
      destruct Hsel as [Hall'|r _ _ Hr]; [congruence|].
      split; [rewrite <- !app_assoc; simpl; eauto|].
      split; [now apply (list_remove_NoDup id (case_list st0) r)|].
      intros Hp. rewrite Ht, Hp in Hout. discriminate Hout.
    + rewrite Hm in Hm'. injection Hm' as <- <-. simpl.
      destruct Hsel as [Hall'|r _ _ Hr]; [congruence|].
      split; [rewrite <- !app_assoc; simpl; eauto|].
      split; [now apply (list_remove_NoDup id (case_list st0) r)|].
      intros _. exists cd. split; [reflexivity|].
      split; [now rewrite <- !app_assoc|].
      split; intros v;
        destruct (tally_loop_done v _ _ _ _ _ Ht) as [Hcd Htb].
      * rewrite Hcd. simpl. lia.
      * rewrite Htb. simpl.
        pose proof (counter_get_nonneg (testbed_vendor_dict st0) v Hpos).
        pose proof (count_vendor_nonneg
                      v (map (re_split colon) (re_split comma rv))).
        destruct (count_vendor
                    v (map (re_split colon) (re_split comma rv)) =? 0)
          eqn:E; lia.
  - intros pre mid line line' st1 st2 Hid Hid' Hrun Hmid.
    rewrite for_lines_snoc in Hrun.
    pose proof (for_lines_invariant
                  (fun st => list_in "all" (case_list st) = false
                             /\ NoDup (case_list st))
                  line_step_explicit_NoDup
                  pre (initial_state cl) (conj Hall Hnd)) as I0.
    destruct (for_lines pre (initial_state cl)) as [[| |e] st0];
      try discriminate.
    destruct I0 as [Ha0 Hn0]. simpl in Ha0, Hn0.
    pose proof (process_line_inv _ _ _ _ Hrun) as S1.
    pose proof (line_step_consumes id st0 line st1 Ha0 Hn0 Hid S1) as Hgone.
    destruct (line_step_explicit_NoDup _ _ _ _ (conj Ha0 Hn0) S1)
      as [Ha1 _].
    pose proof (for_lines_invariant
                  (fun st => list_in "all" (case_list st) = false
                             /\ ~ In id (case_list st))) as I2.
    specialize (I2 ltac:(intros st line0 c st' [Ha Hg] S; split;
                         [destruct S as [ | | | | ? ? ? ? ? ? ? ? ? Hsel ?
                                          | ? ? ? ? ? ? ? ? Hsel ? ];
                          simpl; auto; eapply selects_explicit; eauto
                         |eapply line_step_absent; eauto])).
    specialize (I2 mid st1 (conj Ha1 Hgone)).
    rewrite Hmid in I2. destruct I2 as [Ha2 Hg2]. simpl in Ha2, Hg2.
    apply (process_line_skips line' id st2 Hid' Ha2).
    now apply list_in_not_In.
Qed.

Lemma only_first_record_of_an_id_witness :
  (log (snd (process_line record_5_1_1 (initial_state ["5.1.1"%string])))
   = [ LogCase "5.1.1";
       LogPairs [["Leader"; "ARM"]; ["Router_1"; "ARM"]];
       LogVendorDevices [("ARM", 2)] ]%string
   /\ counter_get
        (testbed_vendor_dict
           (snd (process_line record_5_1_1 (initial_state ["5.1.1"%string]))))
        "ARM"
      = Z.max 0 2
   /\ ~ In "5.1.1"%string
          (case_list
             (snd (process_line record_5_1_1
                                (initial_state ["5.1.1"%string])))))
  /\ process_line
       record_5_1_1_again
       (snd (for_lines topo_example (initial_state ["5.1.1"%string])))
     = (Next, snd (for_lines topo_example (initial_state ["5.1.1"%string]))).
Proof.
  destruct (only_first_record_of_an_id ["5.1.1"%string] "5.1.1"%string)
    as [Hfirst Hlater].
  - reflexivity.
  - repeat constructor. simpl. tauto.
  - simpl. tauto.
  - split.
    + destruct (Hfirst [] record_5_1_1 (initial_state ["5.1.1"%string]))
        as (rv & Hm & _ & Hgone & Htally);
        [constructor|reflexivity|reflexivity|].
      assert (Hrv : rv = "Leader:ARM,Router_1:ARM"%string).
      { vm_compute in Hm. now injection Hm as <-. }
      subst rv.
      destruct (Htally eq_refl) as (cd & _ & _ & _ & Htb).
      split; [reflexivity|]. split; [exact (Htb "ARM"%string)|exact Hgone].
    + apply (Hlater [] [record_5_2_1] record_5_1_1 record_5_1_1_again
                    (snd (for_lines [record_5_1_1]
                                    (initial_state ["5.1.1"%string]))));
        reflexivity.
Defined.

(** The selection is a Python list: an identifier given twice on the
    command line is matched twice, and the two first records that carry it
    are processed. *)
Remark repeated_identifier_matches_twice :
  log (snd (device_calculate [record_5_1_1; record_5_1_1_again]
                             ["5.1.1"; "5.1.1"]%string))
  = [ LogCase "5.1.1";
      LogPairs [["Leader"; "ARM"]; ["Router_1"; "ARM"]];
      LogVendorDevices [("ARM", 2)];
      LogCase "5.1.1";
      LogPairs [["Leader"; "Kirale"]; ["Router_1"; "Kirale"];
                ["Router_2"; "Kirale"]];
      LogVendorDevices [("Kirale", 3)];
      LogTestbed [("ARM", 2); ("Kirale", 3)] ]%string.
Proof. reflexivity. Qed.

(** ** C8: the example of the module docstring *)

(** C8.  For the file of the two lines of cases 5.1.1 and 5.2.1 and the
    selection 'all', the run ends without an exception; the case tallies
    reported are ARM:2 for 5.1.1 and OpenThread:1, Kirale:1, SiLabs:1 for
    5.2.1, and the final test-bed counter is ARM:2, OpenThread:1,
    Kirale:1, SiLabs:1. *)
Theorem docstring_example_tally :
  file_lines topo_content = topo_example
  /\ device_calculate topo_example ["all"%string]
     = (None,
        mkState
          [("ARM", 2); ("OpenThread", 1); ("Kirale", 1); ("SiLabs", 1)]
          ["all"]
          [ LogCase "5.1.1";
            LogPairs [["Leader"; "ARM"]; ["Router_1"; "ARM"]];
            LogVendorDevices [("ARM", 2)];
            LogCase "5.2.1";
            LogPairs [["Leader"; "OpenThread"]; ["REED_1"; "Kirale"];
                      ["MED_1"; "SiLabs"]];
            LogVendorDevices
              [("OpenThread", 1); ("Kirale", 1); ("SiLabs", 1)];
            LogTestbed
              [("ARM", 2); ("OpenThread", 1); ("Kirale", 1); ("SiLabs", 1)]
          ])%string.
Proof. split; reflexivity. Qed.

(** ** C6: a token that is not a role:vendor pair *)

Lemma tally_loop_malformed (rvl : list (list string)) (cd tb : Counter) :
  Exists (fun t => length t <> 2%nat) rvl ->
  snd (tally_loop rvl cd tb) = Some ValueError.
Proof.
  intros H. revert cd tb.
  induction H as [t rest Ht|t rest _ IH]; intros cd tb; simpl.
  - destruct t as [|role [|vendor [|extra t]]]; try reflexivity.
    now destruct Ht.
  - destruct t as [|role [|vendor [|extra t]]]; try reflexivity.
    apply IH.
Qed.

Lemma selects_functional (id : string) (cl r1 r2 : list string) :
  selects id cl r1 -> selects id cl r2 -> r1 = r2.
Proof.
  intros [H1|q1 H1 _ Hr1] [H2|q2 H2 _ Hr2]; congruence.
Qed.

(** A selected record with a token that does not split on [:] into two
    parts: the unpacking on line 122 raises [ValueError] outside the [try]
    block, so the exception leaves the function, and the log has the case
    and its tuples but no 'Unrecognized format' record for the line. *)
Lemma process_line_malformed_token (line id rv : string) (cl' : list string)
    (st : state) :
  line <> ""%string ->
  match_comment (strip line) = false ->
  match_case (strip line) = Some (id, rv) ->
  selects id (case_list st) cl' ->
  Exists (fun token => length (re_split colon token) <> 2%nat)
         (re_split comma rv) ->
  exists tb,
    process_line line st
    = (Raise ValueError,
       mkState tb cl'
         (log st ++ [ LogCase id;
                      LogPairs (map (re_split colon) (re_split comma rv)) ])).
Proof.
  intros Hne Hc Hm Hsel Hbad.
  pose proof (tally_loop_malformed
                (map (re_split colon) (re_split comma rv)) []
                (testbed_vendor_dict st)) as Hraise.
  rewrite Exists_map in Hraise. specialize (Hraise Hbad).
  pose proof (process_line_step line st) as S.
  destruct (process_line line st) as [c st']. simpl in S.
  destruct S as [ | | | id' rv' _ _ Hm' Ha' Hi'
                  | id' rv' r cd tb e _ _ Hm' Hsel' Ht
                  | id' rv' r cd tb _ _ Hm' Hsel' Ht ];
    try congruence.
  - exfalso. rewrite Hm in Hm'. injection Hm' as <- <-.
    destruct Hsel as [Ha|q Ha Hi Hr]; congruence.
  - rewrite Hm in Hm'. injection Hm' as <- <-.
    rewrite Ht in Hraise. simpl in Hraise. injection Hraise as ->.
    rewrite (selects_functional _ _ _ _ Hsel' Hsel).
    exists tb. unfold reported, set_testbed, set_case_list, info. simpl.
    now rewrite <- app_assoc.
  - rewrite Hm in Hm'. injection Hm' as <- <-.
    rewrite Ht in Hraise. discriminate Hraise.
Qed.

(** C6 on the code.  The second token of the first line has no [:].  The
    run ends with the [ValueError] of the unpacking and the second line is
    not read, but what is logged is the case and its tuples only: the line
    is not reported as an unrecognized format, as a line without a [-]
    is. *)
Theorem malformed_token_not_reported :
  device_calculate bad_token_lines ["all"%string]
  = (Some ValueError,
     mkState [("ARM", 1)] ["all"]
             [ LogCase "5.1.1";
               LogPairs [["Leader"; "ARM"]; ["Router_1"]] ])%string
  /\ ~ In (LogUnrecognized "5.1.1-Leader:ARM,Router_1" ValueError)
          (log (snd (device_calculate bad_token_lines ["all"%string]))).
Proof.
  split; [reflexivity|].
  simpl. intros [H|[H|[]]]; discriminate H.
Qed.

(** * Further properties of [device_calculate] *)

(** ** Comment lines *)

Lemma for_lines_without_comments (lines : list string) (st : state) :
  for_lines (filter (fun line => negb (is_comment_line line)) lines) st
  = for_lines lines st.
Proof.
  revert st. induction lines as [|line rest IH]; intros st; simpl.
  - reflexivity.
  - destruct (is_comment_line line) eqn:E; simpl.
    + now rewrite (process_line_comment line st E).
    + destruct (process_line line st) as [[| |e] st']; auto.
Qed.

(** Comment lines change nothing: the run on a stream and the run on the
    stream without its comment lines end the same way, with the same log,
    selection and counter, whatever the other lines and the selection. *)
Theorem comments_are_transparent (lines cl : list string) :
  device_calculate (filter (fun line => negb (is_comment_line line)) lines) cl
  = device_calculate lines cl.
Proof.
  unfold device_calculate. now rewrite for_lines_without_comments.
Qed.

(** ** The selection 'all' *)

Lemma reported_ids_app (l1 l2 : list log_record) :
  reported_ids (l1 ++ l2) = reported_ids l1 ++ reported_ids l2.
Proof.
  induction l1 as [|r l1 IH]; simpl; [reflexivity|].
  destruct r; simpl; now rewrite IH.
Qed.

Lemma line_step_all (st : state) (line : string) (c : control) (st' : state) :
  list_in "all" (case_list st) = true ->
  line_step st line c st' ->
  case_list st' = case_list st
  /\ (c = Next ->
      reported_ids (log st')
      = reported_ids (log st) ++ record_ids [line]).
Proof.
  intros Hall S.
  destruct S as [ Hl | Hl Hc | Hl Hc Hm | id rv Hl Hc Hm Ha Hi
                  | id rv cl' cd tb e Hl Hc Hm Hsel Ht
                  | id rv cl' cd tb Hl Hc Hm Hsel Ht ]; simpl.
  - split; [reflexivity|discriminate 1].
  - split; [reflexivity|]. intros _. unfold case_id_of, is_comment_line.
    rewrite Hc. now rewrite app_nil_r.
  - split; [reflexivity|]. discriminate 1.
  - congruence.
  - split; [|discriminate 1].
    destruct Hsel as [_|r Ha _ _]; [reflexivity|congruence].
  - split; [destruct Hsel as [_|r Ha _ _]; [reflexivity|congruence]|].
    intros _. rewrite !reported_ids_app. simpl.
    rewrite (case_id_of_record line id rv Hc Hm). now rewrite !app_nil_r.
Qed.

Lemma for_lines_all (lines : list string) (st : state) :
  list_in "all" (case_list st) = true ->
  case_list (snd (for_lines lines st)) = case_list st
  /\ (fst (for_lines lines st) = Next ->
      reported_ids (log (snd (for_lines lines st)))
      = reported_ids (log st) ++ record_ids lines).
Proof.
  revert st. induction lines as [|line rest IH]; intros st Hall; simpl.
  - split; [reflexivity|]. intros _. now rewrite app_nil_r.
  - pose proof (process_line_step line st) as S.
    destruct (process_line line st) as [c st1]. simpl in S.
    destruct (line_step_all st line c st1 Hall S) as [Hcl Hids].
    destruct c; simpl; try (split; [exact Hcl|discriminate 1]).
    assert (Hall1 : list_in "all" (case_list st1) = true) by congruence.
    destruct (IH st1 Hall1) as [Hcl' Hids']. split; [congruence|].
    intros Hn. rewrite (Hids' Hn), (Hids eq_refl). simpl.
    rewrite <- app_assoc. f_equal.
    destruct (case_id_of line); reflexivity.
Qed.

Lemma reported_ids_finish (st : state) :
  reported_ids (log (finish st)) = reported_ids (log st).
Proof.
  unfold finish.
  destruct (case_list st) as [|y l];
    [|destruct (negb (list_in "all" (y :: l)))]; simpl;
    rewrite !reported_ids_app; simpl; now rewrite ?app_nil_r.
Qed.

(** When 'all' is listed in the selection (alone or among identifiers),
    the selection is never changed, and a run that ends without an
    exception reports every case record of the stream exactly once, in
    stream order, however often an identifier occurs in the stream. *)
Theorem all_reports_every_record (lines cl : list string) :
  list_in "all" cl = true ->
  case_list (snd (device_calculate lines cl)) = cl
  /\ (Forall (fun line => line <> ""%string) lines ->
      fst (device_calculate lines cl) = None ->
      reported_ids (log (snd (device_calculate lines cl)))
      = record_ids lines).
Proof.
  intros Hall. unfold device_calculate.
  destruct (for_lines_all lines (initial_state cl) Hall) as [Hcl Hids].
  pose proof (for_lines_no_break lines (initial_state cl)) as Hnb.
  destruct (for_lines lines (initial_state cl)) as [c st].
  simpl in Hcl, Hids, Hnb. split.
  - destruct c; lazy beta iota delta [snd]; rewrite ?case_list_finish;
      exact Hcl.
  - intros Hne Hdone. destruct c; lazy beta iota delta [snd fst] in *.
    + rewrite reported_ids_finish. now apply Hids.
    + now destruct (Hnb Hne).
    + discriminate.
Qed.

Lemma all_reports_every_record_witness :
  list_in "all" ["5.2.1"; "all"]%string = true
  /\ case_list (snd (device_calculate
                       (topo_example ++ [record_5_1_1_again])
                       ["5.2.1"; "all"]%string))
     = ["5.2.1"; "all"]%string
  /\ reported_ids (log (snd (device_calculate
                               (topo_example ++ [record_5_1_1_again])
                               ["5.2.1"; "all"]%string)))
     = ["5.1.1"; "5.2.1"; "5.1.1"]%string.
Proof.
  split; [reflexivity|].
  destruct (all_reports_every_record
              (topo_example ++ [record_5_1_1_again])
              ["5.2.1"; "all"]%string eq_refl) as [Hcl Hids].
  split; [exact Hcl|].
  rewrite Hids; [reflexivity| |reflexivity].
  repeat constructor; discriminate.
Defined.

(** ** An explicit selection *)

Lemma list_remove_Permutation (x : string) (l l' : list string) :
  list_remove x l = Some l' -> Permutation l (x :: l').
Proof.
  revert l'. induction l as [|y l IH]; intros l'; simpl; [discriminate|].
  destruct (String.eqb y x) eqn:E.
  - apply String.eqb_eq in E. subst y. now intros [= <-].
  - destruct (list_remove x l) as [r|]; simpl; [|discriminate].
    intros [= <-]. rewrite (IH r eq_refl). apply perm_swap.
Qed.

Lemma line_step_partition (cl0 : list string) (st : state) (line : string)
    (c : control) (st' : state) :
  list_in "all" (case_list st) = false
  /\ Permutation cl0 (reported_ids (log st) ++ case_list st) ->
  line_step st line c st' ->
  list_in "all" (case_list st') = false
  /\ Permutation cl0 (reported_ids (log st') ++ case_list st').
Proof.
  intros [Hall Hp] S.
  destruct S as [ Hl | Hl Hc | Hl Hc Hm | id rv Hl Hc Hm Ha Hi
                  | id rv cl' cd tb e Hl Hc Hm Hsel Ht
                  | id rv cl' cd tb Hl Hc Hm Hsel Ht ]; simpl; auto.
  - split; [exact Hall|]. rewrite reported_ids_app. simpl.
    now rewrite app_nil_r.
  - split; [now apply (selects_explicit id (case_list st))|].
    destruct Hsel as [Ha|r _ _ Hr]; [congruence|].
    rewrite !reported_ids_app. simpl. rewrite app_nil_r, <- app_assoc. simpl.
    rewrite Hp. apply Permutation_app_head.
    now apply list_remove_Permutation.
  - split; [now apply (selects_explicit id (case_list st))|].
    destruct Hsel as [Ha|r _ _ Hr]; [congruence|].
    rewrite !reported_ids_app. simpl.
    rewrite !app_nil_r, <- app_assoc. simpl.
    rewrite Hp. apply Permutation_app_head.
    now apply list_remove_Permutation.
Qed.

(** Under an explicit selection the run splits the selection in two: the
    identifiers of the cases it reported and the identifiers left in
    [case_list] are together the selection that was given, each identifier
    as often as it was listed.  So every reported case was asked for, and
    no identifier is both used up and reported as not found.  This holds
    however the run ends. *)
Theorem selection_is_partitioned (lines cl : list string) :
  list_in "all" cl = false ->
  Permutation cl
    (reported_ids (log (snd (device_calculate lines cl)))
       ++ case_list (snd (device_calculate lines cl))).
Proof.
  intros Hall.
  pose proof (for_lines_invariant
                (fun st => list_in "all" (case_list st) = false
                           /\ Permutation cl (reported_ids (log st)
                                                ++ case_list st))
                (line_step_partition cl)
                lines (initial_state cl) (conj Hall (Permutation_refl cl)))
    as [_ I].
  unfold device_calculate.
  destruct (for_lines lines (initial_state cl)) as [c st]. simpl in I.
  destruct c; lazy beta iota delta [snd];
    rewrite ?reported_ids_finish, ?case_list_finish; exact I.
Qed.

Lemma selection_is_partitioned_witness :
  reported_ids
    (log (snd (device_calculate
                 (topo_example ++ [record_5_1_1_again])
                 ["9.9.9"; "5.1.1"; "5.1.1"; "5.1.1"]%string)))
  = ["5.1.1"; "5.1.1"]%string
  /\ Permutation
       ["9.9.9"; "5.1.1"; "5.1.1"; "5.1.1"]%string
       (["5.1.1"; "5.1.1"]%string ++ ["9.9.9"; "5.1.1"]%string).
Proof.
  split; [reflexivity|].
  exact (selection_is_partitioned
           (topo_example ++ [record_5_1_1_again])
           ["9.9.9"; "5.1.1"; "5.1.1"; "5.1.1"]%string eq_refl).
Defined.

(** *** The order of the selection *)

Lemma list_in_Permutation (x : string) (l l' : list string) :
  Permutation l l' -> list_in x l' = list_in x l.
Proof.
  intros Hp. destruct (list_in x l) eqn:E.
  - apply list_in_In. apply list_in_In in E.
    now apply (Permutation_in x Hp).
  - apply list_in_not_In. apply list_in_not_In in E.
    intros Hin. apply E. now apply (Permutation_in x (Permutation_sym Hp)).
Qed.

Lemma list_remove_Permutation_compat (x : string) (l l' r : list string) :
  Permutation l l' -> list_remove x l = Some r ->
  exists r', list_remove x l' = Some r' /\ Permutation r r'.
Proof.
  intros Hp Hr.
  assert (Hin : list_in x l' = true).
  { rewrite (list_in_Permutation x l l' Hp). apply list_in_In.
    pose proof (list_remove_Permutation _ _ _ Hr) as Hpr.
    apply (Permutation_in x (Permutation_sym Hpr)). now left. }
  destruct (list_remove_listed x l' Hin) as [r' Hr'].
  exists r'. split; [exact Hr'|].
  apply (Permutation_cons_inv (a := x)).
  rewrite <- (list_remove_Permutation _ _ _ Hr).
  rewrite <- (list_remove_Permutation _ _ _ Hr'). exact Hp.
Qed.

Lemma process_line_reordered (line : string) (st st' : state) :
  same_but_order st st' ->
  fst (process_line line st') = fst (process_line line st)
  /\ same_but_order (snd (process_line line st))
                    (snd (process_line line st')).
Proof.
  destruct st as [tb cl lg], st' as [tb' cl' lg'].
  intros (Htb & Hlg & Hp). simpl in Htb, Hlg, Hp. subst tb' lg'.
  unfold process_line.
  destruct (String.eqb line "").
  { simpl. split; [reflexivity|]. now repeat split. }
  unfold try_body.
  destruct (match_comment (strip line)).
  { simpl. split; [reflexivity|]. now repeat split. }
  destruct (match_case (strip line)) as [[id rv]|].
  2: { simpl. split; [reflexivity|]. now repeat split. }
  simpl.
  rewrite (list_in_Permutation "all" cl cl' Hp).
  rewrite (list_in_Permutation id cl cl' Hp).
  destruct (list_in "all" cl); simpl.
  - destruct (tally_loop (map (re_split colon) (re_split comma rv)) [] tb)
      as [[cd tb1] [e|]]; simpl; (split; [reflexivity|]); now repeat split.
  - destruct (list_in id cl) eqn:Hin; simpl.
    + destruct (list_remove_listed _ _ Hin) as [r Hr].
      destruct (list_remove_Permutation_compat id cl cl' r Hp Hr)
        as (r' & Hr' & Hp').
      rewrite Hr, Hr'. simpl.
      destruct (tally_loop (map (re_split colon) (re_split comma rv)) [] tb)
        as [[cd tb1] [e|]]; simpl; (split; [reflexivity|]); now repeat split.
    + split; [reflexivity|]. now repeat split.
Qed.

Lemma for_lines_reordered (lines : list string) (st st' : state) :
  same_but_order st st' ->
  fst (for_lines lines st') = fst (for_lines lines st)
  /\ same_but_order (snd (for_lines lines st)) (snd (for_lines lines st')).
Proof.
  revert st st'. induction lines as [|line rest IH]; intros st st' Hsame;
    simpl.
  - now split.
  - destruct (process_line_reordered line st st' Hsame) as [Hc Hs].
    destruct (process_line line st) as [c st1],
             (process_line line st') as [c' st1'].
    simpl in Hc, Hs. subst c'.
    destruct c; simpl; auto.
Qed.

Lemma finish_reordered (st st' : state) :
  same_but_order st st' ->
  testbed_vendor_dict (finish st') = testbed_vendor_dict (finish st)
  /\ without_not_found (log (finish st'))
     = without_not_found (log (finish st))
  /\ Permutation (case_list (finish st)) (case_list (finish st')).
Proof.
  intros Hs. rewrite !case_list_finish.
  destruct st as [tb cl lg], st' as [tb' cl' lg'].
  destruct Hs as (Htb & Hlg & Hp). simpl in Htb, Hlg, Hp. subst tb' lg'.
  split; [|split; [|exact Hp]].
  - unfold finish. simpl.
    destruct cl', cl; simpl;
      repeat match goal with
             | |- context [if ?b then _ else _] => destruct b; simpl
             end; reflexivity.
  - unfold finish. simpl.
    destruct cl', cl; simpl;
      repeat match goal with
             | |- context [if ?b then _ else _] => destruct b; simpl
             end;
      rewrite ?without_not_found_app; simpl; rewrite ?app_nil_r;
      reflexivity.
Qed.

(** The order in which the identifiers are listed in the selection does
    not matter: for two selections that are permutations of each other the
    run ends the same way, with the same test-bed counter and the same
    report apart from the order inside the 'not found' record. *)
Theorem selection_order_is_irrelevant (lines cl cl' : list string) :
  Permutation cl cl' ->
  fst (device_calculate lines cl') = fst (device_calculate lines cl)
  /\ testbed_vendor_dict (snd (device_calculate lines cl'))
     = testbed_vendor_dict (snd (device_calculate lines cl))
  /\ without_not_found (log (snd (device_calculate lines cl')))
     = without_not_found (log (snd (device_calculate lines cl)))
  /\ Permutation (case_list (snd (device_calculate lines cl)))
                 (case_list (snd (device_calculate lines cl'))).
Proof.
  intros Hp.
  assert (Hsame : same_but_order (initial_state cl) (initial_state cl'))
    by (now repeat split).
  destruct (for_lines_reordered lines _ _ Hsame) as [Hc Hs].
  unfold device_calculate.
  destruct (for_lines lines (initial_state cl)) as [c st],
           (for_lines lines (initial_state cl')) as [c' st'].
  simpl in Hc, Hs. subst c'.
  destruct (finish_reordered st st' Hs) as (Htb & Hlog & Hcl).
  destruct Hs as (Htb0 & Hlg0 & Hp0).
  destruct c; lazy beta iota delta [snd fst]; auto.
  rewrite Htb0, Hlg0. auto.
Qed.

Lemma selection_order_is_irrelevant_witness :
  Permutation ["5.2.1"; "9.9.9"; "5.1.1"]%string
              ["9.9.9"; "5.1.1"; "5.2.1"]%string
  /\ testbed_vendor_dict
       (snd (device_calculate topo_example
                              ["9.9.9"; "5.1.1"; "5.2.1"]%string))
     = testbed_vendor_dict
         (snd (device_calculate topo_example
                                ["5.2.1"; "9.9.9"; "5.1.1"]%string)).
Proof.
  assert (Hp : Permutation ["5.2.1"; "9.9.9"; "5.1.1"]%string
                           ["9.9.9"; "5.1.1"; "5.2.1"]%string).
  { apply (Permutation_cons_app ["9.9.9"; "5.1.1"]%string []).
    rewrite app_nil_r. apply Permutation_refl. }
  split; [exact Hp|].
  exact (proj1 (proj2 (selection_order_is_irrelevant topo_example _ _ Hp))).
Defined.

(** ** Tokens and lines *)

Lemma re_split_not_nil (sep : ascii) (s : string) : re_split sep s <> [].
Proof.
  destruct s as [|c s]; simpl; [discriminate|].
  destruct (Ascii.eqb c sep); [discriminate|].
  destruct (re_split sep s); discriminate.
Qed.

Lemma concat_cons_sep (sep x y : string) (l : list string) :
  String.concat sep (x :: y :: l)
  = (x ++ sep ++ String.concat sep (y :: l))%string.
Proof. reflexivity. Qed.

(** The tokenizer of lines 111 and 115 loses nothing: joining the pieces
    with the separator gives the string back, no piece holds the
    separator, and there is one piece more than there are separators (so
    an empty string, an ending separator and two separators in a row all
    give an empty piece). *)
Theorem re_split_round_trip (sep : ascii) (s : string) :
  String.concat (String sep EmptyString) (re_split sep s) = s
  /\ Forall (fun piece => contains sep piece = false) (re_split sep s)
  /\ length (re_split sep s) = S (count_char sep s).
Proof.
  induction s as [|c s (IHc & IHf & IHl)]; simpl.
  - repeat split. repeat constructor.
  - pose proof (re_split_not_nil sep s) as Hne.
    destruct (Ascii.eqb c sep) eqn:E.
    + apply Ascii.eqb_eq in E. subst c.
      destruct (re_split sep s) as [|y l] eqn:R; [contradiction|].
      rewrite concat_cons_sep, IHc.
      split; [reflexivity|]. split; [now constructor|].
      simpl in *. now rewrite IHl.
    + destruct (re_split sep s) as [|y l] eqn:R; [contradiction|].
      apply Forall_cons_iff in IHf. destruct IHf as [Hy Hl].
      split; [|split].
      * destruct l as [|z l]; simpl in *; now rewrite IHc.
      * constructor; [simpl; now rewrite E|exact Hl].
      * exact IHl.
Qed.

Lemma concat_empty_cons (x : string) (l : list string) :
  String.concat "" (x :: l) = (x ++ String.concat "" l)%string.
Proof.
  destruct l as [|y l]; simpl; [|reflexivity].
  induction x as [|c x IH]; simpl; [reflexivity|now rewrite <- IH].
Qed.

(** The iteration over the file cuts its text into lines and loses
    nothing: the lines put together are the text, no line is empty, and a
    line holds a newline as its last character at most. *)
Theorem file_lines_round_trip (content : string) :
  String.concat "" (file_lines content) = content
  /\ Forall (fun line => line <> ""%string
                         /\ (line = first_line line
                             \/ line = (first_line line ++ nl)%string))
            (file_lines content).
Proof.
  split.
  - induction content as [|c rest IH]; simpl; [reflexivity|].
    destruct (Ascii.eqb c newline) eqn:E.
    + apply Ascii.eqb_eq in E. subst c.
      rewrite concat_empty_cons, IH. reflexivity.
    + destruct (file_lines rest) as [|l ls].
      * simpl in *. now subst rest.
      * rewrite concat_empty_cons in *. simpl. now rewrite IH.
  - pose proof (file_lines_nonempty content) as Hne.
    pose proof (file_lines_shape content) as Hsh.
    rewrite Forall_forall in *. intros line Hin. split; auto.
Qed.

(** On the lines of a file the [break] of line 94 is never taken: the loop
    over the lines ends at the end of the file or by an exception. *)
Theorem break_is_never_taken (content : string) (cl : list string) :
  fst (for_lines (file_lines content) (initial_state cl)) <> Break.
Proof.
  apply for_lines_no_break, file_lines_nonempty.
Qed.

Lemma rstrip_head (c : ascii) (s : string) :
  isspace c = false -> exists r, rstrip (String c s) = String c r.
Proof.
  intros Hc. simpl. destruct (rstrip s) as [|c' r].
  - rewrite Hc. now exists EmptyString.
  - now exists (String c' r).
Qed.

Lemma lstrip_head (s : string) :
  match lstrip s with
  | EmptyString => True
  | String c _ => isspace c = false
  end.
Proof.
  induction s as [|c s IH]; simpl; [exact I|].
  destruct (isspace c) eqn:E; [exact IH|exact E].
Qed.

(** Whether a line is skipped as a comment depends on its first character
    that is not white space only: the line is a comment exactly when that
    character is [#].  The [strip] of line 95 and the optional white space
    of the pattern of line 98 do the same work, and what follows the [#]
    (a [-] too) never matters. *)
Theorem comment_iff_first_is_hash (line : string) :
  is_comment_line line = match_comment line
  /\ (is_comment_line line = true
      <-> exists rest, lstrip line = String hash rest).
Proof.
  assert (H : is_comment_line line = match_comment line).
  { unfold is_comment_line, strip, match_comment.
    pose proof (lstrip_head (lstrip line)) as Hh.
    pose proof (lstrip_head line) as Hl.
    destruct (lstrip line) as [|c r] eqn:E; [reflexivity|].
    destruct (rstrip_head c r Hl) as [r' ->]. simpl. now rewrite Hl. }
  split; [exact H|]. rewrite H. unfold match_comment.
  destruct (lstrip line) as [|c r].
  - split; [discriminate|]. intros [rest Hr]. discriminate Hr.
  - split.
    + intros Hc. apply Ascii.eqb_eq in Hc. subst c. now exists r.
    + intros [rest [= -> _]]. reflexivity.
Qed.

(** ** The tally of one case *)

Lemma sum_all_set (d : Counter) (k : string) (x : Z) :
  sum_all (counter_set d k (counter_get d k + x)) = sum_all d + x.
Proof.
  induction d as [|[k0 v0] d IH]; simpl; [lia|].
  destruct (String.eqb k0 k); simpl; [lia|]. rewrite IH. lia.
Qed.

Lemma tally_loop_case_NoDup (rvl : list (list string)) (cd tb : Counter) :
  NoDup (counter_keys cd) ->
  NoDup (counter_keys (fst (fst (tally_loop rvl cd tb)))).
Proof.
  revert cd tb. induction rvl as [|t rest IH]; intros cd tb H; simpl.
  - exact H.
  - destruct t as [|role [|vendor [|extra t]]]; simpl; try exact H.
    apply IH. now apply counter_keys_set_NoDup.
Qed.

Lemma tally_loop_case_sum (rvl : list (list string)) (cd tb cd' tb' : Counter) :
  tally_loop rvl cd tb = (cd', tb', None) ->
  sum_all cd' = sum_all cd + Z.of_nat (length rvl).
Proof.
  revert cd tb. induction rvl as [|t rest IH]; intros cd tb.
  - simpl. intros [= <- _]. lia.
  - cbn [tally_loop].
    destruct t as [|role [|vendor [|extra t]]]; try discriminate.
    intros H. rewrite (IH _ _ H), sum_all_set.
    change (length ([role; vendor] :: rest)) with (S (length rest)). lia.
Qed.

Lemma tally_loop_case_mem (v : string) (rvl : list (list string))
    (cd tb cd' tb' : Counter) :
  tally_loop rvl cd tb = (cd', tb', None) ->
  counter_mem v cd' = counter_mem v cd || (0 <? count_vendor v rvl).
Proof.
  revert cd tb. induction rvl as [|t rest IH]; intros cd tb.
  - simpl. intros [= <- _]. now rewrite orb_false_r.
  - cbn [tally_loop count_vendor].
    destruct t as [|role [|vendor [|extra t]]]; try discriminate.
    intros H. rewrite (IH _ _ H), counter_mem_set.
    pose proof (count_vendor_nonneg v rest) as Hn.
    destruct (String.eqb vendor v), (counter_mem v cd); cbn [orb];
      rewrite ?Z.add_0_l; try reflexivity.
    symmetry. apply Z.ltb_lt. lia.
Qed.

(** The tally of a case whose tuples are all pairs, as it is logged on line
    127: the count of every vendor is its number of pairs in the record,
    the vendors listed are those of the record, each once, and the counts
    add up to the number of pairs, whatever the test-bed counter was. *)
Theorem case_tally_counts_pairs
    (role_vendor_list : list (list string)) (tb cd tb' : Counter) :
  tally_loop role_vendor_list [] tb = (cd, tb', None) ->
  (forall v, counter_get cd v = count_vendor v role_vendor_list)
  /\ (forall v, counter_mem v cd = true
                <-> 0 < count_vendor v role_vendor_list)
  /\ NoDup (counter_keys cd)
  /\ sum_all cd = Z.of_nat (length role_vendor_list).
Proof.
  intros H. repeat split.
  - intros v. now destruct (tally_loop_done v _ _ _ _ _ H) as [-> _].
  - rewrite (tally_loop_case_mem v _ _ _ _ _ H). simpl. apply Z.ltb_lt.
  - rewrite (tally_loop_case_mem v _ _ _ _ _ H). simpl. apply Z.ltb_lt.
  - pose proof (tally_loop_case_NoDup role_vendor_list [] tb
                  (NoDup_nil string)) as N. now rewrite H in N.
  - now rewrite (tally_loop_case_sum _ _ _ _ _ H).
Qed.

Lemma case_tally_counts_pairs_witness :
  counter_get [("OpenThread", 1); ("Kirale", 2)]%string "Kirale" = 2
  /\ sum_all [("OpenThread", 1); ("Kirale", 2)]%string = 3.
Proof.
  destruct (case_tally_counts_pairs
              [["Leader"; "OpenThread"]; ["REED_1"; "Kirale"];
               ["MED_1"; "Kirale"]]%string
              [("Kirale", 5)]%string
              [("OpenThread", 1); ("Kirale", 2)]%string
              [("Kirale", 5); ("OpenThread", 1)]%string
              eq_refl) as (Hget & _ & _ & Hsum).
  split; [exact (Hget "Kirale"%string)|exact Hsum].
Defined.

(** ** The counts of the test bed *)

Lemma counter_set_In_other (d : Counter) (k k' : string) (x v : Z) :
  k' <> k -> In (k', v) (counter_set d k x) -> In (k', v) d.
Proof.
  intros Hne. induction d as [|[k0 v0] d IH]; simpl.
  - intros [[= -> _]|[]]. congruence.
  - destruct (String.eqb k0 k) eqn:E; simpl.
    + apply String.eqb_eq in E. subst k0.
      intros [[= -> _]|H]; [congruence|now right].
    + intros [H|H]; [now left|right; now apply IH].
Qed.

(** No vendor is listed with a count below 1: in the counter that
    [device_calculate] leaves, however the run ends, every vendor other
    than 'Any' has a count of at least 1 (the count of 'Any' is what is
    left of [MAX_VENDOR_DEVICE] and can be anything). *)
Theorem vendor_counts_are_positive
    (lines cl : list string) (vendor : string) (count : Z) :
  In (vendor, count)
     (testbed_vendor_dict (snd (device_calculate lines cl))) ->
  vendor <> "Any"%string ->
  1 <= count.
Proof.
  pose proof (for_lines_invariant
                (fun st => Forall (fun kv => 1 <= snd kv)
                                  (testbed_vendor_dict st))
                line_step_positive lines (initial_state cl)
                (Forall_nil _)) as I.
  pose proof (for_lines_NoDup lines cl) as N.
  unfold device_calculate.
  destruct (for_lines lines (initial_state cl)) as [c st].
  simpl in I, N. rewrite Forall_forall in I.
  assert (Hfin : forall k v, In (k, v) (testbed_vendor_dict (finish st)) ->
                             k <> "Any"%string -> 1 <= v).
  { intros k v Hin Hk.
    assert (E : testbed_vendor_dict (finish st)
                = override_any_spec (testbed_vendor_dict st)).
    { unfold finish.
      destruct (case_list st) as [|y l];
        [|destruct (negb (list_in "all" (y :: l)))]; simpl;
        now apply override_any_refines. }
    rewrite E in Hin. unfold override_any_spec in Hin.
    destruct (counter_mem "Any" (testbed_vendor_dict st)).
    - apply (I (k, v)).
      now apply (counter_set_In_other (testbed_vendor_dict st) "Any"%string
                   k (MAX_VENDOR_DEVICE - sum_others (testbed_vendor_dict st))
                   v).
    - now apply (I (k, v)). }
  destruct c; lazy beta iota delta [snd]; intros Hin Hk.
  - now apply (Hfin vendor count).
  - now apply (Hfin vendor count).
  - now apply (I (vendor, count)).
Qed.

Lemma vendor_counts_are_positive_witness :
  In ("ARM"%string, 33)
     (testbed_vendor_dict
        (snd (device_calculate [oversubscribed_line] ["all"%string])))
  /\ "ARM"%string <> "Any"%string
  /\ 1 <= 33.
Proof.
  assert (Hin : In ("ARM"%string, 33)
                   (testbed_vendor_dict
                      (snd (device_calculate [oversubscribed_line]
                                             ["all"%string]))))
    by (vm_compute; now left).
  assert (Hne : "ARM"%string <> "Any"%string) by discriminate.
  split; [exact Hin|]. split; [exact Hne|].
  exact (vendor_counts_are_positive [oversubscribed_line] ["all"%string]
           "ARM"%string 33 Hin Hne).
Defined.

Lemma for_lines_holds_maximum (lines cl : list string) :
  fst (for_lines lines (initial_state cl)) <> Raise ValueError ->
  holds_maximum (snd (for_lines lines (initial_state cl))).
Proof.
  apply (for_lines_invariant_until holds_maximum
           (fun c => c <> Raise ValueError)).
  - discriminate.
  - intros st line c st' H S Hc.
    exact (line_step_holds_maximum st line c st' Hc H S).
  - intros v. reflexivity.
Qed.

(** The vendors listed in the test-bed counter are those of the cases that
    were processed: when the loop over the lines has not stopped in the
    unpacking of a tuple, a vendor is a key of the counter exactly when
    some reported case has a pair with that vendor.  A vendor of an
    unselected or a later record is not listed. *)
Theorem listed_vendors_are_those_seen
    (lines cl : list string) (v : string) :
  fst (for_lines lines (initial_state cl)) <> Raise ValueError ->
  (counter_mem v
     (testbed_vendor_dict (snd (for_lines lines (initial_state cl)))) = true
   <-> 0 < max_count v
             (processed_cases
                (log (snd (for_lines lines (initial_state cl)))))).
Proof.
  intros Hc.
  pose proof (for_lines_holds_maximum lines cl Hc v) as Hmax.
  pose proof (for_lines_invariant
                (fun st => Forall (fun kv => 1 <= snd kv)
                                  (testbed_vendor_dict st))
                line_step_positive lines (initial_state cl)
                (Forall_nil _)) as Hpos.
  cbv beta in Hpos. rewrite <- Hmax. split.
  - intros Hmem. pose proof (counter_get_ge 1 _ v Hpos Hmem). lia.
  - intros Hget.
    destruct (counter_mem v _) eqn:E; [reflexivity|].
    rewrite (counter_get_absent _ v E) in Hget. lia.
Qed.

Lemma listed_vendors_are_those_seen_witness :
  counter_mem "Kirale"
    (testbed_vendor_dict
       (snd (for_lines topo_example (initial_state ["5.1.1"%string]))))
  = false
  /\ counter_mem "ARM"
       (testbed_vendor_dict
          (snd (for_lines topo_example (initial_state ["5.1.1"%string]))))
     = true.
Proof.
  split; [reflexivity|].
  apply (listed_vendors_are_those_seen topo_example ["5.1.1"%string]
           "ARM"%string); [discriminate|reflexivity].
Defined.

(** ** The override of 'Any' *)

Lemma sum_others_set_any (d : Counter) (x : Z) :
  sum_others (counter_set d "Any" x) = sum_others d.
Proof.
  induction d as [|[k v] d IH]; simpl; [reflexivity|].
  destruct (String.eqb k "Any") eqn:E; simpl; rewrite E; [reflexivity|].
  now rewrite IH.
Qed.

Lemma sum_all_others (d : Counter) :
  NoDup (counter_keys d) ->
  sum_all d = sum_others d + counter_get d "Any".
Proof.
  induction d as [|[k v] d IH]; simpl; [reflexivity|].
  intros Hnd. inversion Hnd as [|? ? Hfresh Hnd']; subst.
  specialize (IH Hnd').
  destruct (String.eqb k "Any") eqn:E; [|lia].
  apply String.eqb_eq in E. subst k.
  assert (Hm : counter_mem "Any" d = false).
  { destruct (counter_mem "Any" d) eqn:M; [|reflexivity].
    apply counter_mem_In in M. contradiction. }
  rewrite (counter_get_absent d _ Hm) in IH. lia.
Qed.

(** What lines 134-139 do to a counter with 'Any' among its keys, each key
    once: the counts then add up to [MAX_VENDOR_DEVICE] exactly; the count
    that 'Any' had before does not matter, only that it is a key; and
    doing the override again changes nothing. *)
Theorem any_override_fills_up (d : Counter) :
  NoDup (counter_keys d) ->
  counter_mem "Any" d = true ->
  sum_all (override_any d) = MAX_VENDOR_DEVICE
  /\ (forall x, override_any (counter_set d "Any" x) = override_any d)
  /\ override_any (override_any d) = override_any d.
Proof.
  intros Hnd Hmem.
  assert (Hset : forall x, NoDup (counter_keys (counter_set d "Any" x)))
    by (intros x; now apply counter_keys_set_NoDup).
  assert (Hany : forall x,
             override_any (counter_set d "Any" x) = override_any d).
  { intros x. rewrite !override_any_refines by auto.
    unfold override_any_spec.
    rewrite counter_mem_set, Hmem, counter_set_set, sum_others_set_any.
    reflexivity. }
  split; [|split; [exact Hany|]].
  - rewrite override_any_refines by assumption. unfold override_any_spec.
    rewrite Hmem, sum_all_others by auto.
    rewrite sum_others_set_any, counter_get_set, String.eqb_refl. lia.
  - rewrite (override_any_refines d Hnd) at 1. unfold override_any_spec.
    rewrite Hmem. apply Hany.
Qed.

Lemma any_override_fills_up_witness :
  sum_all (override_any [("ARM", 4); ("Any", 1); ("NXP", 5)]%string) = 32
  /\ override_any [("ARM", 4); ("Any", 7); ("NXP", 5)]%string
     = override_any [("ARM", 4); ("Any", 1); ("NXP", 5)]%string.
Proof.
  destruct (any_override_fills_up [("ARM", 4); ("Any", 1); ("NXP", 5)]%string)
    as (Hsum & Hany & _).
  - repeat constructor; simpl; intuition discriminate.
  - reflexivity.
  - split; [exact Hsum|exact (Hany 7)].
Defined.

(** ** When the run fails *)

(** A selected case record fails exactly when one of its tokens does not
    split on [:] into two parts (no [:], more than one [:], or an empty
    token after an ending [,]): the iteration then ends with [ValueError];
    otherwise it goes on with the next line.  Nothing else in a selected
    record can fail; in particular [case_list.remove] never does. *)
Theorem selected_record_outcome
    (line id rv : string) (cl' : list string) (st : state) :
  line <> ""%string ->
  match_comment (strip line) = false ->
  match_case (strip line) = Some (id, rv) ->
  selects id (case_list st) cl' ->
  fst (process_line line st)
  = if pair_tokens rv then Next else Raise ValueError.
Proof.
  intros Hne Hc Hm Hsel.
  pose proof (tally_loop_outcome
                (map (re_split colon) (re_split comma rv)) []
                (testbed_vendor_dict st)) as Hout.
  rewrite pair_tokens_map in Hout.
  pose proof (process_line_step line st) as S.
  destruct (process_line line st) as [c st']. simpl in S. simpl.
  destruct S as [ | | | id' rv' _ _ Hm' Ha' Hi'
                  | id' rv' r cd tb e _ _ Hm' Hsel' Ht
                  | id' rv' r cd tb _ _ Hm' Hsel' Ht ];
    try congruence.
  - exfalso. rewrite Hm in Hm'. injection Hm' as <- <-.
    destruct Hsel as [Ha|q Ha Hi Hr]; congruence.
  - rewrite Hm in Hm'. injection Hm' as <- <-.
    rewrite Ht in Hout. simpl in Hout.
    destruct (pair_tokens rv); congruence.
  - rewrite Hm in Hm'. injection Hm' as <- <-.
    rewrite Ht in Hout. simpl in Hout.
    destruct (pair_tokens rv); congruence.
Qed.

Lemma selected_record_outcome_witness :
  fst (process_line ("5.1.1-Leader:ARM," ++ nl)%string
                    (initial_state ["all"%string]))
  = Raise ValueError
  /\ fst (process_line ("5.1.1-Leader:ARM:x" ++ nl)%string
                       (initial_state ["5.1.1"%string]))
     = Raise ValueError
  /\ fst (process_line record_5_2_1 (initial_state ["5.2.1"%string])) = Next.
Proof.
  split; [|split].
  - apply (selected_record_outcome _ "5.1.1" "Leader:ARM," ["all"]%string);
      [discriminate|reflexivity|reflexivity|now apply selects_all].
  - apply (selected_record_outcome _ "5.1.1" "Leader:ARM:x" []%string);
      [discriminate|reflexivity|reflexivity|now apply selects_listed].
  - apply (selected_record_outcome
             _ "5.2.1" "Leader:OpenThread,REED_1:Kirale,MED_1:SiLabs"
             []%string);
      [discriminate|reflexivity|reflexivity|now apply selects_listed].
Defined.

Lemma process_line_well_formed (line : string) (st : state) :
  well_formed_line line = true -> fst (process_line line st) = Next.
Proof.
  unfold well_formed_line, is_comment_line. intros H.
  apply andb_true_iff in H. destruct H as [Hne H].
  apply negb_true_iff, String.eqb_neq in Hne.
  pose proof (process_line_step line st) as S.
  destruct (process_line line st) as [c st']. simpl in S. simpl.
  destruct S as [ | | Hl Hc Hm | | id rv r cd tb e Hl Hc Hm Hsel Ht | ];
    try reflexivity; try contradiction.
  - rewrite Hc, Hm in H. discriminate H.
  - rewrite Hc, Hm in H. simpl in H.
    pose proof (tally_loop_outcome
                  (map (re_split colon) (re_split comma rv)) []
                  (testbed_vendor_dict st)) as Hout.
    rewrite pair_tokens_map, H, Ht in Hout. discriminate Hout.
Qed.

Lemma process_line_all_outcome (line : string) (st : state) :
  list_in "all" (case_list st) = true -> line <> ""%string ->
  (fst (process_line line st) = Next <-> well_formed_line line = true).
Proof.
  intros Hall Hne. split; [|apply process_line_well_formed].
  unfold well_formed_line, is_comment_line.
  apply String.eqb_neq in Hne. rewrite Hne. simpl.
  pose proof (tally_loop_outcome) as Hout.
  unfold process_line, try_body. rewrite Hne.
  destruct (match_comment (strip line)); [reflexivity|].
  destruct (match_case (strip line)) as [[id rv]|]; [|discriminate].
  rewrite Hall. simpl.
  specialize (Hout (map (re_split colon) (re_split comma rv)) []
                   (testbed_vendor_dict st)).
  rewrite pair_tokens_map in Hout.
  destruct (tally_loop (map (re_split colon) (re_split comma rv)) []
                       (testbed_vendor_dict st)) as [[cd tb] [e|]];
    simpl in *; [discriminate|].
  intros _. destruct (pair_tokens rv); [reflexivity|discriminate].
Qed.

(** A stream in which every line is a comment or a case record of
    role:vendor tokens is processed to its end without an exception,
    whatever the selection.  With 'all' in the selection this is the only
    way: the run ends without an exception exactly when every line of the
    file is such a line. *)
Theorem run_completes_iff_well_formed (lines cl : list string) :
  (forallb well_formed_line lines = true ->
   fst (device_calculate lines cl) = None)
  /\ (list_in "all" cl = true ->
      Forall (fun line => line <> ""%string) lines ->
      (fst (device_calculate lines cl) = None
       <-> forallb well_formed_line lines = true)).
Proof.
  assert (Hsuff : forall st,
             forallb well_formed_line lines = true ->
             fst (for_lines lines st) = Next).
  { induction lines as [|line rest IH]; intros st H; simpl in *.
    - reflexivity.
    - apply andb_true_iff in H. destruct H as [Hl Hr].
      pose proof (process_line_well_formed line st Hl) as Hn.
      destruct (process_line line st) as [c st']. simpl in Hn. subst c.
      now apply IH. }
  split.
  - intros H. unfold device_calculate. specialize (Hsuff (initial_state cl) H).
    destruct (for_lines lines (initial_state cl)) as [c st].
    simpl in Hsuff. now subst c.
  - intros Hall Hne. split.
    + unfold device_calculate.
      assert (Hnec : forall st,
                 list_in "all" (case_list st) = true ->
                 fst (for_lines lines st) = Next ->
                 forallb well_formed_line lines = true).
      { clear Hsuff. induction Hne as [|line rest Hl _ IH]; intros st Ha;
          simpl.
        - reflexivity.
        - pose proof (process_line_all_outcome line st Ha Hl) as Hiff.
          pose proof (process_line_step line st) as S.
          destruct (process_line line st) as [c st']. simpl in Hiff, S.
          destruct (line_step_all st line c st' Ha S) as [Hcl _].
          destruct c; simpl; try discriminate.
          intros Hn. rewrite (proj1 Hiff eq_refl). simpl.
          apply (IH st'); [congruence|exact Hn]. }
      pose proof (for_lines_no_break lines (initial_state cl) Hne) as Hnb.
      specialize (Hnec (initial_state cl) Hall).
      destruct (for_lines lines (initial_state cl)) as [c st].
      simpl in *. destruct c; simpl; intros Hd;
        [now apply Hnec|contradiction|discriminate].
    + intros H. unfold device_calculate.
      specialize (Hsuff (initial_state cl) H).
      destruct (for_lines lines (initial_state cl)) as [c st].
      simpl in Hsuff. now subst c.
Qed.

Lemma run_completes_iff_well_formed_witness :
  forallb well_formed_line (comment_example ++ topo_example) = true
  /\ fst (device_calculate (comment_example ++ topo_example)
                           ["5.2.1"%string]) = None
  /\ forallb well_formed_line (topo_example ++ bad_token_lines) = false.
Proof.
  split; [reflexivity|]. split.
  - apply (proj1 (run_completes_iff_well_formed
                    (comment_example ++ topo_example) ["5.2.1"%string])).
    reflexivity.
  - destruct (forallb well_formed_line (topo_example ++ bad_token_lines))
      eqn:E; [|reflexivity].
    apply (proj2 (run_completes_iff_well_formed
                    (topo_example ++ bad_token_lines) ["all"%string])) in E.
    + discriminate E.
    + reflexivity.
    + repeat constructor; discriminate.
Defined.

Lemma existsb_unrecognized_app (l1 l2 : list log_record) :
  existsb is_unrecognized (l1 ++ l2)
  = existsb is_unrecognized l1 || existsb is_unrecognized l2.
Proof. apply existsb_app. Qed.

(** What one iteration adds to a log without an 'Unrecognized format'
    record, by the way the iteration ends. *)
Lemma line_step_log (st : state) (line : string) (c : control)
    (st' : state) :
  existsb is_unrecognized (log st) = false ->
  line_step st line c st' ->
  match c with
  | Raise AttributeError =>
      log st' = log st ++ [LogUnrecognized (strip line) AttributeError]
  | Raise ValueError =>
      existsb is_unrecognized (log st') = false
      /\ exists l rvl,
           log st' = l ++ [LogPairs rvl]
           /\ forallb (fun t => (length t =? 2)%nat) rvl = false
  | _ => existsb is_unrecognized (log st') = false
  end.
Proof.
  intros H S.
  destruct S as [ | | | | id rv cl' cd tb e Hl Hc Hm Hsel Ht
                  | id rv cl' cd tb Hl Hc Hm Hsel Ht ]; simpl; auto.
  - pose proof (tally_loop_outcome
                  (map (re_split colon) (re_split comma rv)) []
                  (testbed_vendor_dict st)) as Hout.
    rewrite Ht in Hout. simpl in Hout.
    destruct (forallb (fun t => (length t =? 2)%nat)
                      (map (re_split colon) (re_split comma rv))) eqn:E;
      [discriminate|].
    injection Hout as ->. split.
    + rewrite !existsb_unrecognized_app, H. reflexivity.
    + eauto.
  - rewrite !existsb_unrecognized_app, H. reflexivity.
Qed.

Lemma for_lines_log (lines : list string) (st : state) :
  existsb is_unrecognized (log st) = false ->
  match fst (for_lines lines st) with
  | Raise AttributeError =>
      exists l line,
        log (snd (for_lines lines st))
        = l ++ [LogUnrecognized line AttributeError]
        /\ existsb is_unrecognized l = false
  | Raise ValueError =>
      existsb is_unrecognized (log (snd (for_lines lines st))) = false
      /\ exists l rvl,
           log (snd (for_lines lines st)) = l ++ [LogPairs rvl]
           /\ forallb (fun t => (length t =? 2)%nat) rvl = false
  | _ => existsb is_unrecognized (log (snd (for_lines lines st))) = false
  end.
Proof.
  revert st. induction lines as [|line rest IH]; intros st H; simpl.
  - exact H.
  - pose proof (process_line_step line st) as S.
    destruct (process_line line st) as [c st1]. simpl in S.
    pose proof (line_step_log st line c st1 H S) as L.
    destruct c as [| |[|]]; lazy beta iota delta [fst snd].
    + now apply IH.
    + exact L.
    + exists (log st), (strip line). now split.
    + exact L.
Qed.

(** The end of the log tells how the run ended.  Without an exception the
    last record is the final counter, and no line was reported as
    unrecognized.  After [AttributeError] the last record is the single
    'Unrecognized format' report, with that exception.  After [ValueError]
    nothing was reported as unrecognized: the last record is the list of
    tuples of the record that failed, one of them not a pair. *)
Theorem log_tells_how_the_run_ended (lines cl : list string) :
  match fst (device_calculate lines cl) with
  | None =>
      existsb is_unrecognized (log (snd (device_calculate lines cl))) = false
      /\ exists l,
           log (snd (device_calculate lines cl))
           = l ++ [LogTestbed
                     (testbed_vendor_dict (snd (device_calculate lines cl)))]
  | Some AttributeError =>
      exists l line,
        log (snd (device_calculate lines cl))
        = l ++ [LogUnrecognized line AttributeError]
        /\ existsb is_unrecognized l = false
  | Some ValueError =>
      existsb is_unrecognized (log (snd (device_calculate lines cl))) = false
      /\ exists l rvl,
           log (snd (device_calculate lines cl)) = l ++ [LogPairs rvl]
           /\ forallb (fun t => (length t =? 2)%nat) rvl = false
  end.
Proof.
  pose proof (for_lines_log lines (initial_state cl) eq_refl) as L.
  unfold device_calculate.
  destruct (for_lines lines (initial_state cl)) as [c st]. simpl in L.
  assert (Hfin : existsb is_unrecognized (log st) = false ->
                 existsb is_unrecognized (log (finish st)) = false
                 /\ exists l, log (finish st)
                              = l ++ [LogTestbed
                                        (testbed_vendor_dict (finish st))]).
  { intros H. unfold finish.
    destruct (case_list st) as [|y l];
      [|destruct (negb (list_in "all" (y :: l)))]; simpl;
      rewrite ?existsb_unrecognized_app, H; simpl; eauto. }
  destruct c as [| |[|]]; lazy beta iota delta [fst snd]; auto.
Qed.

(** An exception ends the run: when the run on a stream ends with an
    exception, the run on that stream followed by any further lines ends
    the same way, with the same log, selection and counter.  No line after
    the failing one is read, whichever of the two exceptions it is. *)
Theorem exception_ends_the_run (pre post cl : list string) (e : exn) :
  fst (device_calculate pre cl) = Some e ->
  device_calculate (pre ++ post) cl = device_calculate pre cl.
Proof.
  unfold device_calculate. rewrite for_lines_app.
  destruct (for_lines pre (initial_state cl)) as [[| |e'] st]; simpl;
    [discriminate|discriminate|reflexivity].
Qed.

Lemma exception_ends_the_run_witness :
  fst (device_calculate bad_token_lines ["all"%string]) = Some ValueError
  /\ device_calculate (bad_token_lines ++ topo_example) ["all"%string]
     = device_calculate bad_token_lines ["all"%string].
Proof.
  split; [reflexivity|].
  apply (exception_ends_the_run bad_token_lines topo_example ["all"%string]
           ValueError).
  reflexivity.
Defined.

(** ** Records that are not selected *)

Lemma line_step_shrinks (cl0 : list string) (st : state) (line : string)
    (c : control) (st' : state) :
  list_in "all" (case_list st) = false /\ incl (case_list st) cl0 ->
  line_step st line c st' ->
  list_in "all" (case_list st') = false /\ incl (case_list st') cl0.
Proof.
  intros [Hall Hincl] S.
  destruct S as [ | | | | id rv cl' ? ? e ? Hc Hm Hsel Ht
                  | id rv cl' ? ? ? Hc Hm Hsel Ht ]; simpl; auto.
  all: split; [now apply (selects_explicit id (case_list st))|].
  all: destruct Hsel as [|r _ _ Hr]; [exact Hincl|].
  all: intros a Ha; apply Hincl; now apply (list_remove_incl id a _ r).
Qed.

Lemma for_lines_without_unselected (cl0 lines : list string) (st : state) :
  list_in "all" (case_list st) = false -> incl (case_list st) cl0 ->
  for_lines
    (filter (fun line => match case_id_of line with
                         | Some id => list_in id cl0
                         | None => true
                         end) lines) st
  = for_lines lines st.
Proof.
  revert st. induction lines as [|line rest IH]; intros st Hall Hincl; simpl.
  - reflexivity.
  - pose proof (process_line_step line st) as S.
    destruct (case_id_of line) as [id|] eqn:Hid;
      [destruct (list_in id cl0) eqn:Hin|]; simpl.
    + destruct (process_line line st) as [c st']. simpl in S.
      destruct (line_step_shrinks cl0 st line c st' (conj Hall Hincl) S).
      destruct c; auto.
    + rewrite (process_line_skips line id st Hid Hall); [now apply IH|].
      apply list_in_not_In. intros H. apply list_in_not_In in Hin.
      apply Hin. now apply Hincl.
    + destruct (process_line line st) as [c st']. simpl in S.
      destruct (line_step_shrinks cl0 st line c st' (conj Hall Hincl) S).
      destruct c; auto.
Qed.

(** Under an explicit selection the case records whose identifier is not
    listed are as good as absent: the run on the stream without them ends
    the same way, with the same log, selection and counter.  Such a record
    is not looked into, so a malformed token in it is no error. *)
Theorem unselected_records_are_transparent (lines cl : list string) :
  list_in "all" cl = false ->
  device_calculate
    (filter (fun line => match case_id_of line with
                         | Some id => list_in id cl
                         | None => true
                         end) lines) cl
  = device_calculate lines cl.
Proof.
  intros Hall. unfold device_calculate.
  rewrite (for_lines_without_unselected cl lines (initial_state cl) Hall);
    [reflexivity|apply incl_refl].
Qed.

Lemma unselected_records_are_transparent_witness :
  device_calculate (firstn 1 bad_token_lines ++ topo_example)
                   ["5.2.1"%string]
  = device_calculate [record_5_2_1] ["5.2.1"%string]
  /\ fst (device_calculate (firstn 1 bad_token_lines ++ topo_example)
                           ["5.2.1"%string]) = None.
Proof.
  split; [|reflexivity].
  rewrite <- (unselected_records_are_transparent
                (firstn 1 bad_token_lines ++ topo_example)
                ["5.2.1"%string] eq_refl).
  reflexivity.
Defined.

(** ** Two streams processed as one *)

Lemma tally_loop_indep (rvl : list (list string)) (cd tb tb' : Counter) :
  fst (fst (tally_loop rvl cd tb)) = fst (fst (tally_loop rvl cd tb'))
  /\ snd (tally_loop rvl cd tb) = snd (tally_loop rvl cd tb').
Proof.
  revert cd tb tb'. induction rvl as [|t rest IH]; intros cd tb tb'; simpl.
  - now split.
  - destruct t as [|role [|vendor [|extra t]]]; simpl; try now split.
    apply IH.
Qed.

(** With 'all' listed, what an iteration logs and how it ends depend on
    the line only. *)
Lemma process_line_all_log (line : string) (a b : state) :
  list_in "all" (case_list a) = true ->
  list_in "all" (case_list b) = true ->
  fst (process_line line a) = fst (process_line line b)
  /\ exists delta,
       log (snd (process_line line a)) = log a ++ delta
       /\ log (snd (process_line line b)) = log b ++ delta.
Proof.
  intros Ha Hb. unfold process_line.
  destruct (String.eqb line "").
  { split; [reflexivity|]. exists []. now rewrite !app_nil_r. }
  unfold try_body.
  destruct (match_comment (strip line)).
  { split; [reflexivity|]. exists []. now rewrite !app_nil_r. }
  destruct (match_case (strip line)) as [[id rv]|].
  2: { split; [reflexivity|]. simpl. eauto. }
  rewrite Ha, Hb. simpl.
  destruct (tally_loop_indep (map (re_split colon) (re_split comma rv)) []
              (testbed_vendor_dict a) (testbed_vendor_dict b)) as [Hcd Ho].
  destruct (tally_loop (map (re_split colon) (re_split comma rv)) []
                       (testbed_vendor_dict a)) as [[cd1 t1] o1],
           (tally_loop (map (re_split colon) (re_split comma rv)) []
                       (testbed_vendor_dict b)) as [[cd2 t2] o2].
  simpl in Hcd, Ho. subst cd2 o2.
  destruct o1 as [e|]; simpl; (split; [reflexivity|]);
    rewrite <- !app_assoc; simpl; eauto.
Qed.

Lemma for_lines_all_log (lines : list string) (a b : state) :
  list_in "all" (case_list a) = true ->
  list_in "all" (case_list b) = true ->
  fst (for_lines lines a) = fst (for_lines lines b)
  /\ exists delta,
       log (snd (for_lines lines a)) = log a ++ delta
       /\ log (snd (for_lines lines b)) = log b ++ delta.
Proof.
  revert a b. induction lines as [|line rest IH]; intros a b Ha Hb; simpl.
  - split; [reflexivity|]. exists []. now rewrite !app_nil_r.
  - destruct (process_line_all_log line a b Ha Hb)
      as (Hc & delta & Hla & Hlb).
    pose proof (process_line_step line a) as Sa.
    pose proof (process_line_step line b) as Sb.
    destruct (process_line line a) as [c a1],
             (process_line line b) as [c' b1].
    simpl in Hc, Hla, Hlb, Sa, Sb. subst c'.
    destruct (line_step_all a line c a1 Ha Sa) as [Hca _].
    destruct (line_step_all b line c b1 Hb Sb) as [Hcb _].
    destruct c; simpl; eauto.
    destruct (IH a1 b1) as (Hc' & delta' & Hla' & Hlb'); try congruence.
    split; [exact Hc'|]. exists (delta ++ delta').
    rewrite Hla', Hlb', Hla, Hlb. now rewrite <- !app_assoc.
Qed.

Lemma max_count_app (v : string) (c1 c2 : list (list (list string))) :
  max_count v (c1 ++ c2) = Z.max (max_count v c1) (max_count v c2).
Proof.
  unfold max_count. pose proof (max_count_nonneg v c2) as Hn.
  unfold max_count in Hn.
  induction c1 as [|c c1 IH]; simpl; [lia|]. rewrite IH. lia.
Qed.

(** With 'all' in the selection, two streams that are each processed to
    the end are processed to the end when put one after the other, and
    the test-bed count of every vendor for the joined stream, before 'Any'
    is overridden, is the larger of its counts for the two streams: the
    need of the parts is not added up. *)
Theorem joined_streams_need_the_maximum
    (lines1 lines2 cl : list string) (v : string) :
  list_in "all" cl = true ->
  fst (for_lines lines1 (initial_state cl)) = Next ->
  fst (for_lines lines2 (initial_state cl)) = Next ->
  fst (for_lines (lines1 ++ lines2) (initial_state cl)) = Next
  /\ counter_get
       (testbed_vendor_dict
          (snd (for_lines (lines1 ++ lines2) (initial_state cl)))) v
     = Z.max
         (counter_get
            (testbed_vendor_dict (snd (for_lines lines1 (initial_state cl))))
            v)
         (counter_get
            (testbed_vendor_dict (snd (for_lines lines2 (initial_state cl))))
            v).
Proof.
  intros Hall H1 H2.
  assert (N1 : fst (for_lines lines1 (initial_state cl)) <> Raise ValueError)
    by (rewrite H1; discriminate).
  assert (N2 : fst (for_lines lines2 (initial_state cl)) <> Raise ValueError)
    by (rewrite H2; discriminate).
  pose proof (for_lines_holds_maximum lines1 cl N1 v) as M1.
  pose proof (for_lines_holds_maximum lines2 cl N2 v) as M2.
  pose proof (for_lines_holds_maximum (lines1 ++ lines2) cl) as M12.
  destruct (for_lines_all lines1 (initial_state cl) Hall) as [Hcl1 _].
  rewrite for_lines_app in *.
  destruct (for_lines lines1 (initial_state cl)) as [c1 st1].
  simpl in H1, Hcl1, M1. subst c1. cbv beta iota in *.
  assert (Ha1 : list_in "all" (case_list st1) = true) by congruence.
  destruct (for_lines_all_log lines2 st1 (initial_state cl) Ha1 Hall)
    as (Hc & delta & Hl1 & Hl2).
  rewrite H2 in Hc. split; [exact Hc|].
  change (snd (Next, st1)) with st1.
  rewrite (M12 ltac:(rewrite Hc; discriminate) v), M1, M2, Hl1, Hl2.
  simpl. now rewrite processed_cases_app, max_count_app.
Qed.

Lemma joined_streams_need_the_maximum_witness :
  counter_get
    (testbed_vendor_dict
       (snd (for_lines (two_then_five ++ topo_example)
                       (initial_state ["all"%string])))) "V"
  = Z.max 5 0
  /\ counter_get
       (testbed_vendor_dict
          (snd (for_lines ([record_5_1_1_again] ++ topo_example)
                          (initial_state ["all"%string])))) "Kirale"
     = Z.max 3 1.
Proof.
  split.
  - exact (proj2 (joined_streams_need_the_maximum
                    two_then_five topo_example ["all"%string] "V"%string
                    eq_refl eq_refl eq_refl)).
  - exact (proj2 (joined_streams_need_the_maximum
                    [record_5_1_1_again] topo_example ["all"%string]
                    "Kirale"%string eq_refl eq_refl eq_refl)).
Defined.
